(** * Aegis-Assets: the bundle and glTF fixture generators

    A shallow embedding of the Python fixture generators
    [demo_unity_bundle.py], [test_unity_integration.py] and
    [demo_gltf_test.py], together with the container byte layout that the
    specification declares, and the properties of the generated files. *)

From Stdlib Require Import ZArith String Ascii Bool Lia List.
From Stdlib Require Import Strings.Byte.
From Stdlib Require Import Floats.SpecFloat.
Import ListNotations.

Local Open Scope Z_scope.

(** ** Bytes and [struct.pack] for integers *)

Definition bytes := list byte.

Definition Z_of_byte (b : byte) : Z := Z.of_N (Byte.to_N b).

Definition byte_of_Z (z : Z) : byte :=
  match Byte.of_N (Z.to_N (z mod 256)) with
  | Some b => b
  | None => x00
  end.

(** A bytes literal [b'...'] without escapes. *)
Definition b (s : string) : bytes := list_byte_of_string s.

(** [be_bytes w n]: the [w] low-order bytes of [n], most significant first. *)
Fixpoint be_bytes (w : nat) (n : Z) : bytes :=
  match w with
  | O => []
  | S w' => be_bytes w' (n / 256) ++ [byte_of_Z (n mod 256)]
  end.

(** [le_bytes w n]: the [w] low-order bytes of [n], least significant first. *)
Fixpoint le_bytes (w : nat) (n : Z) : bytes :=
  match w with
  | O => []
  | S w' => byte_of_Z (n mod 256) :: le_bytes w' (n / 256)
  end.

Definition be_decode (bs : bytes) : Z :=
  fold_left (fun acc x => acc * 256 + Z_of_byte x) bs 0.

Definition le_decode (bs : bytes) : Z :=
  fold_right (fun x acc => Z_of_byte x + 256 * acc) 0 bs.

(** The integer format characters of [struct] that the generators use. *)
Inductive int_format := fmt_H | fmt_I | fmt_Q.

Definition int_width (f : int_format) : nat :=
  match f with
  | fmt_H => 2%nat
  | fmt_I => 4%nat
  | fmt_Q => 8%nat
  end.

Definition in_range (w : nat) (n : Z) : bool :=
  (0 <=? n) && (n <? 2 ^ (8 * Z.of_nat w)).

(** [struct.pack('>' + f, n)]; [None] stands for [struct.error]. *)
Definition pack_be (f : int_format) (n : Z) : option bytes :=
  if in_range (int_width f) n then Some (be_bytes (int_width f) n) else None.

(** [struct.pack('<' + f, n)]. *)
Definition pack_le (f : int_format) (n : Z) : option bytes :=
  if in_range (int_width f) n then Some (le_bytes (int_width f) n) else None.

(** [n.to_bytes(w, 'big')]; [None] stands for [OverflowError]. *)
Definition to_bytes_big (n : Z) (w : nat) : option bytes :=
  if in_range w n then Some (be_bytes w n) else None.

(** ** Files

    A file opened with mode ['wb'] starts empty; [f.write] appends and
    [f.tell()] is the number of bytes written so far.  A computation on the
    open file threads its content and may raise. *)

Definition FileM (A : Type) : Type := bytes -> option (A * bytes).

Definition ret {A} (a : A) : FileM A := fun f => Some (a, f).

Definition bind {A B} (m : FileM A) (k : A -> FileM B) : FileM B :=
  fun f => match m f with
           | Some (a, f') => k a f'
           | None => None
           end.

Definition raise_of {A} (o : option A) : FileM A :=
  fun f => match o with
           | Some a => Some (a, f)
           | None => None
           end.

Definition write (data : bytes) : FileM unit := fun f => Some (tt, f ++ data).

Definition tell : FileM Z := fun f => Some (Z.of_nat (length f), f).

Declare Scope file_scope.
Delimit Scope file_scope with file.
Notation "x <- m ;; k" := (bind m (fun x => k))
  (at level 61, m at next level, right associativity) : file_scope.
Notation "m ;; k" := (bind m (fun _ => k))
  (at level 61, right associativity) : file_scope.
Local Open Scope file_scope.

(** [f.write(struct.pack('>' + fmt, n))] *)
Definition write_pack_be (fmt : int_format) (n : Z) : FileM unit :=
  data <- raise_of (pack_be fmt n) ;; write data.

(** [f.write((n).to_bytes(w, 'big'))] *)
Definition write_to_bytes_big (n : Z) (w : nat) : FileM unit :=
  data <- raise_of (to_bytes_big n w) ;; write data.

(** [b'\x00' * n]: empty when [n <= 0]. *)
Definition zeros (n : Z) : bytes := repeat x00 (Z.to_nat n).

(** The closing lines of every generator:
    [remaining = size - f.tell(); if remaining > 0: f.write(b'\x00' * remaining)] *)
Definition pad_to (size : Z) : FileM unit :=
  current_pos <- tell ;;
  let remaining := size - current_pos in
  if 0 <? remaining then write (zeros remaining) else ret tt.

(** The file system: a path holds a content or does not exist. *)
Definition FS := string -> option bytes.

Definition fs_put (fs : FS) (path : string) (content : bytes) : FS :=
  fun p => if String.eqb p path then Some content else fs p.

(** [with open(path, 'wb') as f: body]; an exception in [body] propagates. *)
Definition with_open_wb (path : string) (body : FileM unit) (fs : FS) : option FS :=
  match body [] with
  | Some (_, content) => Some (fs_put fs path content)
  | None => None
  end.

(** ** demo_unity_bundle.py *)

Definition minimal_body : FileM unit :=
  write (b "UnityFS" ++ [x00]) ;;
  write_pack_be fmt_I 7 ;;
  let unity_version := b "2022.3.15f1" ++ [x00] in
  write unity_version ;;
  let unity_revision := b "b58023a2fb5c" ++ [x00] in
  write unity_revision ;;
  let bundle_size := 256 in
  write_pack_be fmt_Q bundle_size ;;
  write_pack_be fmt_I 48 ;;
  write_pack_be fmt_I 48 ;;
  write_pack_be fmt_I 0 ;;
  write_pack_be fmt_I 128 ;;
  write_pack_be fmt_I 128 ;;
  write_pack_be fmt_H 0 ;;
  write_pack_be fmt_Q 128 ;;
  write_pack_be fmt_Q 64 ;;
  write_pack_be fmt_I 0 ;;
  let name := b "SharedAssets0.assets" ++ [x00] in
  write name ;;
  pad_to bundle_size.

Definition create_minimal_unityfs_bundle (filename : string) : FS -> option FS :=
  with_open_wb filename minimal_body.

Definition texture_body : FileM unit :=
  write (b "UnityFS2") ;;
  write_pack_be fmt_I 8 ;;
  write (b "2023.1.0f1" ++ [x00]) ;;
  write (b "c1b978022a1a" ++ [x00]) ;;
  let bundle_size := 512 in
  write_pack_be fmt_Q bundle_size ;;
  write_pack_be fmt_I 64 ;;
  write_pack_be fmt_I 64 ;;
  write_pack_be fmt_I 0 ;;
  write_pack_be fmt_I 256 ;;
  write_pack_be fmt_I 256 ;;
  write_pack_be fmt_H 0 ;;
  write_pack_be fmt_I 128 ;;
  write_pack_be fmt_I 128 ;;
  write_pack_be fmt_H 0 ;;
  write_pack_be fmt_Q 200 ;;
  write_pack_be fmt_Q 256 ;;
  write_pack_be fmt_I 4 ;;
  write (b "MainTexture" ++ [x00]) ;;
  write_pack_be fmt_Q 456 ;;
  write_pack_be fmt_Q 128 ;;
  write_pack_be fmt_I 8 ;;
  write (b "StandardMaterial" ++ [x00]) ;;
  pad_to bundle_size.

Definition create_texture_demo_bundle (filename : string) : FS -> option FS :=
  with_open_wb filename texture_body.

(** ** test_unity_integration.py *)

Definition test_unity_body : FileM unit :=
  write (b "UnityFS" ++ [x00]) ;;
  write (b "2022.3.15f1" ++ [x00]) ;;
  write (b "abcd1234" ++ [x00]) ;;
  write_to_bytes_big 1024 8 ;;
  write_to_bytes_big 100 4 ;;
  write_to_bytes_big 100 4 ;;
  write_to_bytes_big 0 4 ;;
  let dummy_data := zeros 100 in
  write dummy_data ;;
  pad_to 1024.

Definition create_test_unity_file (output_path : string) : FS -> option FS :=
  with_open_wb output_path test_unity_body.

(** The content a generator leaves at [path], when it returns normally. *)
Definition written (gen : string -> FS -> option FS) (path : string) (fs : FS)
  : option bytes :=
  match gen path fs with
  | Some fs' => fs' path
  | None => None
  end.

(** ** The container byte layout *)

Record BundleHeader := {
  signature : bytes;
  format_version : Z;
  engine_version : bytes;
  engine_revision : bytes;
  bundle_size : Z;
  compressed_blocks_info_size : Z;
  uncompressed_blocks_info_size : Z;
  flags : Z
}.

Record BlockDescriptor := {
  uncompressed_size : Z;
  compressed_size : Z;
  block_flags : Z
}.

Record DirectoryEntry := {
  offset : Z;
  size : Z;
  entry_flags : Z;
  name : bytes
}.

Inductive ParseError :=
  | UnsupportedFormat
  | MalformedHeader
  | TruncatedInput
  | TruncatedDirectory.

Inductive result (A : Type) :=
  | Ok (a : A)
  | Err (e : ParseError).
Arguments Ok {A} a.
Arguments Err {A} e.

Notation "'let?' p ':=' e 'in' k" :=
  (match e with
   | Ok p => k
   | Err err => Err err
   end)
  (at level 10, p pattern, e at level 200, k at level 200).

Definition bytes_eqb (x y : bytes) : bool :=
  if list_eq_dec Byte.byte_eq_dec x y then true else false.

(** Modelled from the spec: the signature is a fixed-length token; its length
    and the two family tokens are those the generators write (the reader
    itself is not among the sources). *)
Definition signature_length : nat := 8.

Definition known_signatures : list bytes :=
  [b "UnityFS" ++ [x00]; b "UnityFS2"].

(** Modelled from the spec: a fixed-width read, bounds-checked against the
    remaining input. *)
Definition read_exact (n : nat) (bs : bytes) : result (bytes * bytes) :=
  if (n <=? length bs)%nat then Ok (firstn n bs, skipn n bs)
  else Err TruncatedInput.

(** Modelled from the spec: a fixed-width big-endian integer. *)
Definition read_be (w : nat) (bs : bytes) : result (Z * bytes) :=
  let? (x, rest) := read_exact w bs in Ok (be_decode x, rest).

(** Modelled from the spec: a null-terminated string read with a maximum
    scan length [max_scan] (terminator included); a missing terminator within
    the bound is [MalformedHeader]. *)
Fixpoint read_cstring (max_scan : nat) (bs : bytes) : result (bytes * bytes) :=
  match max_scan with
  | O => Err MalformedHeader
  | S k =>
      match bs with
      | [] => Err MalformedHeader
      | x :: tl =>
          if Byte.eqb x x00 then Ok ([], tl)
          else let? (s, rest) := read_cstring k tl in Ok (x :: s, rest)
      end
  end.

(** Modelled from the spec: the Container Reader of section 4.1, steps 1-4,
    over the layout of section 6. *)
Definition parse_header (max_scan : nat) (bs : bytes)
  : result (BundleHeader * bytes) :=
  let? (sig, r1) := read_exact signature_length bs in
  if existsb (bytes_eqb sig) known_signatures then
    let? (ver, r2) := read_be 4 r1 in
    let? (ev, r3) := read_cstring max_scan r2 in
    let? (er, r4) := read_cstring max_scan r3 in
    let? (bsz, r5) := read_be 8 r4 in
    let? (csz, r6) := read_be 4 r5 in
    let? (usz, r7) := read_be 4 r6 in
    let? (fl, r8) := read_be 4 r7 in
    Ok ({| signature := sig; format_version := ver; engine_version := ev;
           engine_revision := er; bundle_size := bsz;
           compressed_blocks_info_size := csz;
           uncompressed_blocks_info_size := usz; flags := fl |}, r8)
  else Err UnsupportedFormat.

(** Modelled from the spec: the header fields written back in the layout of
    section 6. *)
Definition serialize_header (h : BundleHeader) : bytes :=
  signature h ++ be_bytes 4 (format_version h)
    ++ engine_version h ++ [x00]
    ++ engine_revision h ++ [x00]
    ++ be_bytes 8 (bundle_size h)
    ++ be_bytes 4 (compressed_blocks_info_size h)
    ++ be_bytes 4 (uncompressed_blocks_info_size h)
    ++ be_bytes 4 (flags h).

(** Modelled from the spec: one block descriptor of the block table,
    {uncompressed size: 4 bytes, compressed size: 4 bytes, flags: 2 bytes}. *)
Definition parse_block (bs : bytes) : result (BlockDescriptor * bytes) :=
  let? (u, r1) := read_be 4 bs in
  let? (c, r2) := read_be 4 r1 in
  let? (f, r3) := read_be 2 r2 in
  Ok ({| uncompressed_size := u; compressed_size := c; block_flags := f |}, r3).

Fixpoint parse_blocks (n : nat) (bs : bytes)
  : result (list BlockDescriptor * bytes) :=
  match n with
  | O => Ok ([], bs)
  | S k =>
      let? (d, r1) := parse_block bs in
      let? (ds, r2) := parse_blocks k r1 in
      Ok (d :: ds, r2)
  end.

(** Modelled from the spec: one directory entry,
    {offset: 8 bytes, size: 8 bytes, flags: 4 bytes, name: null-terminated}. *)
Definition parse_entry (max_scan : nat) (bs : bytes)
  : result (DirectoryEntry * bytes) :=
  let? (o, r1) := read_be 8 bs in
  let? (s, r2) := read_be 8 r1 in
  let? (f, r3) := read_be 4 r2 in
  let? (nm, r4) := read_cstring max_scan r3 in
  Ok ({| offset := o; size := s; entry_flags := f; name := nm |}, r4).

(** Modelled from the spec: the Object Directory of section 4.3; input that
    ends before the declared count is reached is [TruncatedDirectory]. *)
Fixpoint parse_directory (max_scan : nat) (n : nat) (bs : bytes)
  : result (list DirectoryEntry * bytes) :=
  match n with
  | O => Ok ([], bs)
  | S k =>
      match parse_entry max_scan bs with
      | Ok (e, r1) =>
          let? (es, r2) := parse_directory max_scan k r1 in Ok (e :: es, r2)
      | Err _ => Err TruncatedDirectory
      end
  end.

(** The length of the virtual address space: the sum of the uncompressed
    sizes of the block descriptors. *)
Definition virtual_length (blocks : list BlockDescriptor) : Z :=
  fold_right (fun d acc => uncompressed_size d + acc) 0 blocks.

(** A bundle file read through the layout: header, then [nblocks] block
    descriptors, then [nentries] directory entries. *)
Record Bundle := {
  header : BundleHeader;
  blocks : list BlockDescriptor;
  directory : list DirectoryEntry;
  payload : bytes
}.

Definition parse_bundle (max_scan nblocks nentries : nat) (bs : bytes)
  : result Bundle :=
  let? (h, r1) := parse_header max_scan bs in
  let? (bl, r2) := parse_blocks nblocks r1 in
  let? (dir, r3) := parse_directory max_scan nentries r2 in
  Ok {| header := h; blocks := bl; directory := dir; payload := r3 |}.


(** ** demo_gltf_test.py *)

(** A Python float is an IEEE 754 binary64 value. *)
Definition float := spec_float.

(** The float literal of value [m * 2^e]. *)
Definition float_of_dyadic (m e : Z) : float := binary_normalize 53 1024 m e false.

Definition f0_0 : float := float_of_dyadic 0 0.
Definition f0_5 : float := float_of_dyadic 1 (-1).
Definition f1_0 : float := float_of_dyadic 1 0.
(** Unary minus on a literal. *)
Definition neg (x : float) : float := SFopp x.

(** The conversion of a double to single precision, round to nearest even. *)
Definition to_binary32 (x : float) : spec_float :=
  match x with
  | S754_finite s m e => binary_round 24 128 s m e
  | _ => x
  end.

(** The conversion of a single to double precision, which is exact. *)
Definition to_binary64 (y : spec_float) : float :=
  match y with
  | S754_finite s m e => binary_round 53 1024 s m e
  | _ => y
  end.

Definition sign_bit (s : bool) : Z := if s then Z.shiftl 1 31 else 0.

(** The 32-bit pattern of a binary32 value. *)
Definition binary32_bits (y : spec_float) : Z :=
  match y with
  | S754_zero s => sign_bit s
  | S754_infinity s => Z.lor (sign_bit s) 0x7f800000
  | S754_nan => 0x7fc00000
  | S754_finite s m e =>
      if 2 ^ 23 <=? Zpos m
      then Z.lor (sign_bit s)
                 (Z.lor (Z.shiftl (e + 150) 23) (Z.land (Zpos m) (2 ^ 23 - 1)))
      else Z.lor (sign_bit s) (Zpos m)
  end.

(** The binary32 value of a 32-bit pattern. *)
Definition binary32_of_bits (bits : Z) : spec_float :=
  let s := Z.testbit bits 31 in
  let ex := Z.land (Z.shiftr bits 23) 255 in
  let man := Z.land bits (2 ^ 23 - 1) in
  if ex =? 0 then
    match man with
    | Zpos m => S754_finite s m (-149)
    | _ => S754_zero s
    end
  else if ex =? 255 then
    if man =? 0 then S754_infinity s else S754_nan
  else
    match Z.lor man (2 ^ 23) with
    | Zpos m => S754_finite s m (ex - 150)
    | _ => S754_nan
    end.

(** [struct.pack('<f', x)]; [None] stands for the [OverflowError] raised
    when a finite [x] is too large for single precision. *)
Definition pack_le_f (x : float) : option bytes :=
  match x, to_binary32 x with
  | S754_finite _ _ _, S754_infinity _ => None
  | _, y => Some (le_bytes 4 (binary32_bits y))
  end.

(** [struct.unpack('<f', data)]. *)
Definition unpack_le_f (data : bytes) : option float :=
  if (length data =? 4)%nat
  then Some (to_binary64 (binary32_of_bits (le_decode data)))
  else None.

(** [struct.unpack('<H', data)]. *)
Definition unpack_le_H (data : bytes) : option Z :=
  if (length data =? 2)%nat then Some (le_decode data) else None.

Notation "'do' x '<-' e ';' k" :=
  (match e with
   | Some x => k
   | None => None
   end)
  (at level 10, x pattern, e at level 200, k at level 200).

(** [for x in xs: binary_data.extend(pack(x))] *)
Fixpoint extend_packed {A} (pack : A -> option bytes) (xs : list A)
         (binary_data : bytes) : option bytes :=
  match xs with
  | [] => Some binary_data
  | x :: tl =>
      do data <- pack x;
      extend_packed pack tl (binary_data ++ data)
  end.

Record Asset := { version : string; generator : string }.
Record Scene := { scene_name : string; scene_nodes : list Z }.
Record Node := { node_name : string; node_mesh : Z }.
Record Primitive := {
  attributes : list (string * Z);
  prim_indices : Z;
  mode : Z
}.
Record Mesh := { mesh_name : string; primitives : list Primitive }.
Record BufferView := {
  bv_buffer : Z;
  bv_byteOffset : Z;
  bv_byteLength : Z;
  target : Z
}.
Record Buffer := { byteLength : Z; uri : string }.
Record Accessor := {
  bufferView : Z;
  byteOffset : Z;
  componentType : Z;
  count : Z;
  type : string;
  acc_min : option (list float);
  acc_max : option (list float)
}.
Record Gltf := {
  asset : Asset;
  scene : Z;
  scenes : list Scene;
  nodes : list Node;
  meshes : list Mesh;
  bufferViews : list BufferView;
  buffers : list Buffer;
  accessors : list Accessor
}.

Definition positions : list float := [
  neg f0_5; neg f0_5; f0_5;
  f0_5; neg f0_5; f0_5;
  f0_5; f0_5; f0_5;
  neg f0_5; f0_5; f0_5;
  neg f0_5; neg f0_5; neg f0_5;
  f0_5; neg f0_5; neg f0_5;
  f0_5; f0_5; neg f0_5;
  neg f0_5; f0_5; neg f0_5
].

Definition normals : list float := [
  f0_0; f0_0; f1_0;
  f0_0; f0_0; neg f1_0;
  neg f1_0; f0_0; f0_0;
  f1_0; f0_0; f0_0;
  f0_0; f1_0; f0_0;
  f0_0; neg f1_0; f0_0
].

Definition uvs : list float := [
  f0_0; f0_0; f1_0; f0_0; f1_0; f1_0; f0_0; f1_0;
  f0_0; f0_0; f1_0; f0_0; f1_0; f1_0; f0_0; f1_0;
  f0_0; f0_0; f1_0; f0_0; f1_0; f1_0; f0_0; f1_0
].

Definition indices : list Z := [
  0; 1; 2;  0; 2; 3;
  5; 4; 7;  5; 7; 6;
  4; 0; 3;  4; 3; 7;
  1; 5; 6;  1; 6; 2;
  3; 2; 6;  3; 6; 7;
  4; 5; 1;  4; 1; 0
].

Definition create_cube_mesh_gltf : option (Gltf * bytes * list Z) :=
  let binary_data := [] in
  do binary_data <- extend_packed pack_le_f positions binary_data;
  do binary_data <- extend_packed pack_le_f normals binary_data;
  do binary_data <- extend_packed pack_le_f uvs binary_data;
  do binary_data <- extend_packed (pack_le fmt_H) indices binary_data;
  let gltf := {|
    asset := {| version := "2.0"; generator := "Aegis-Assets glTF Demo" |};
    scene := 0;
    scenes := [{| scene_name := "Scene"; scene_nodes := [0] |}];
    nodes := [{| node_name := "Cube"; node_mesh := 0 |}];
    meshes := [{|
      mesh_name := "Cube";
      primitives := [{|
        attributes := [("POSITION", 0); ("NORMAL", 1); ("TEXCOORD_0", 2)]%string;
        prim_indices := 3;
        mode := 4
      |}]
    |}];
    bufferViews := [{|
      bv_buffer := 0;
      bv_byteOffset := 0;
      bv_byteLength := Z.of_nat (length binary_data);
      target := 34962
    |}];
    buffers := [{|
      byteLength := Z.of_nat (length binary_data);
      uri := "cube.bin"
    |}];
    accessors := [
      {| bufferView := 0; byteOffset := 0; componentType := 5126;
         count := 8; type := "VEC3";
         acc_min := Some [neg f0_5; neg f0_5; neg f0_5];
         acc_max := Some [f0_5; f0_5; f0_5] |};
      {| bufferView := 0; byteOffset := 8 * 3 * 4; componentType := 5126;
         count := 8; type := "VEC3"; acc_min := None; acc_max := None |};
      {| bufferView := 0; byteOffset := 8 * 3 * 4 + 8 * 3 * 4;
         componentType := 5126;
         count := 8; type := "VEC2"; acc_min := None; acc_max := None |};
      {| bufferView := 0; byteOffset := 8 * 3 * 4 + 8 * 3 * 4 + 8 * 2 * 4;
         componentType := 5123;
         count := 36; type := "SCALAR"; acc_min := None; acc_max := None |}
    ]
  |} in
  Some (gltf, binary_data, indices).

(** The triangle count [len(indices) // 3] that [main] prints. *)
Definition triangle_count (indices : list Z) : Z :=
  Z.of_nat (length indices) / 3.

(** ** Reading a glTF buffer through its accessors *)

Definition components (type : string) : option nat :=
  if String.eqb type "SCALAR" then Some 1%nat
  else if String.eqb type "VEC2" then Some 2%nat
  else if String.eqb type "VEC3" then Some 3%nat
  else None.

(** [n] consecutive items of [w] bytes each, decoded from the front of [bs]. *)
Fixpoint read_items {A} (unpack : bytes -> option A) (w n : nat) (bs : bytes)
  : option (list A) :=
  match n with
  | O => Some []
  | S k =>
      do x <- unpack (firstn w bs);
      do xs <- read_items unpack w k (skipn w bs);
      Some (x :: xs)
  end.

(** The scalar components an accessor of FLOAT components refers to. *)
Definition accessor_floats (buf : bytes) (a : Accessor) : option (list float) :=
  do n <- components (type a);
  if componentType a =? 5126
  then read_items unpack_le_f 4 (Z.to_nat (count a) * n)
                  (skipn (Z.to_nat (byteOffset a)) buf)
  else None.

(** The scalars an accessor of UNSIGNED_SHORT components refers to. *)
Definition accessor_shorts (buf : bytes) (a : Accessor) : option (list Z) :=
  do n <- components (type a);
  if componentType a =? 5123
  then read_items unpack_le_H 2 (Z.to_nat (count a) * n)
                  (skipn (Z.to_nat (byteOffset a)) buf)
  else None.

(** The accessor of a named attribute of the first primitive of the first
    mesh, and that of its triangle indices. *)
Definition first_primitive (g : Gltf) : option Primitive :=
  do m <- nth_error (meshes g) 0;
  nth_error (primitives m) 0.

Fixpoint assoc (key : string) (l : list (string * Z)) : option Z :=
  match l with
  | [] => None
  | (k, v) :: tl => if String.eqb k key then Some v else assoc key tl
  end.

Definition attribute_accessor (g : Gltf) (semantic : string) : option Accessor :=
  do p <- first_primitive g;
  do i <- assoc semantic (attributes p);
  nth_error (accessors g) (Z.to_nat i).

Definition indices_accessor (g : Gltf) : option Accessor :=
  do p <- first_primitive g;
  nth_error (accessors g) (Z.to_nat (prim_indices p)).

(** Componentwise bounds of a sequence of 3-vectors stored flat. *)
Definition fmin (x y : float) : float := if SFltb y x then y else x.
Definition fmax (x y : float) : float := if SFltb x y then y else x.

Fixpoint bounds3 (sel : float -> float -> float) (acc : list float)
         (flat : list float) : list float :=
  match acc, flat with
  | [ax; ay; az], x :: y :: z :: tl =>
      bounds3 sel [sel ax x; sel ay y; sel az z] tl
  | _, _ => acc
  end.

Definition bounding_box (flat : list float) : option (list float * list float) :=
  match flat with
  | x :: y :: z :: tl =>
      Some (bounds3 fmin [x; y; z] tl, bounds3 fmax [x; y; z] tl)
  | _ => None
  end.

(** The bytes one packing loop appends to an empty buffer. *)
Definition stream {A} (pack : A -> option bytes) (xs : list A) : option bytes :=
  extend_packed pack xs [].

(** ** Predicates on the generated files *)

(** The content of a file written by [body] from the empty file. *)
Definition run (body : FileM unit) : option bytes :=
  match body [] with
  | Some (_, content) => Some content
  | None => None
  end.

(** A generator's file, read through the layout with [nb] block descriptors
    and [ne] directory entries, satisfies [P]. *)
Definition writes_bundle (gen : string -> FS -> option FS) (k nb ne : nat)
           (P : bytes -> Bundle -> Prop) : Prop :=
  forall path fs, exists content bd,
    written gen path fs = Some content /\
    parse_bundle k nb ne content = Ok bd /\
    P content bd.

(** A generator's file begins with a header of the layout that satisfies [P];
    [rest] is what follows the header. *)
Definition writes_header (gen : string -> FS -> option FS) (k : nat)
           (P : bytes -> BundleHeader -> bytes -> Prop) : Prop :=
  forall path fs, exists content h rest,
    written gen path fs = Some content /\
    parse_header k content = Ok (h, rest) /\
    P content h rest.

(** The "no compression" invariant of a bundle read through the layout. *)
Definition sizes_agree (bd : Bundle) : Prop :=
  flags (header bd) = 0 /\
  compressed_blocks_info_size (header bd)
    = uncompressed_blocks_info_size (header bd) /\
  Forall (fun d => compressed_size d = uncompressed_size d) (blocks bd).

(** The size invariant of a file [content] that begins with header [h]
    followed by [rest], whose bytes from [written_len] on are the padding. *)
Definition declares_size (written_len : nat) (content : bytes)
           (h : BundleHeader) (rest : bytes) : Prop :=
  Z.of_nat (length (serialize_header h)) <= bundle_size h /\
  length (serialize_header h) = (length content - length rest)%nat /\
  skipn written_len content = zeros (bundle_size h - Z.of_nat written_len) /\
  Z.of_nat (length content) = bundle_size h.

(** The headers the layout can hold. *)
Definition valid_header (k : nat) (h : BundleHeader) : Prop :=
  In (signature h) known_signatures /\
  in_range 4 (format_version h) = true /\
  (~ In x00 (engine_version h) /\ (length (engine_version h) < k)%nat) /\
  (~ In x00 (engine_revision h) /\ (length (engine_revision h) < k)%nat) /\
  in_range 8 (bundle_size h) = true /\
  in_range 4 (compressed_blocks_info_size h) = true /\
  in_range 4 (uncompressed_blocks_info_size h) = true /\
  in_range 4 (flags h) = true.

(** The round trip of a header [h] read from [content] and followed there
    by [rest]. *)
Definition round_trips (k : nat) (content : bytes) (h : BundleHeader)
           (rest : bytes) : Prop :=
  valid_header k h /\
  serialize_header h = firstn (length content - length rest) content /\
  serialize_header h ++ rest = content /\
  parse_header k (serialize_header h ++ rest) = Ok (h, rest).

(** ** demo_unity_bundle.py, [main]

    Console output is not part of the model, here and below. *)


(** ** The scripts that drive the command-line tool

    [examples/unity_extraction.py] and the test functions of
    [test_unity_integration.py] act on the operating system.  The world is
    the file system of the generators together with an environment [Env] that
    stands for everything else; the operations of the platform are taken as
    an interface. *)

Inductive exn :=
  | CalledProcessError (returncode : Z)
  | FileNotFoundError
  | TimeoutExpired
  | OtherError.

(** What starting a process gives: it ran to completion with a return code
    and its captured output, or it could not be run. *)
Inductive run_result :=
  | Completed (returncode : Z) (stdout stderr : string)
  | SpawnError (e : exn).

Record CompletedProcess := {
  returncode : Z;
  stdout : string;
  stderr : string
}.

Class Platform := {
  Env : Type;
  (** the process started by [subprocess.run(cmd, cwd=..., timeout=...)] *)
  spawn : list string -> option string -> option Z -> FS * Env
          -> run_result * (FS * Env);
  (** [Path(p).exists()] *)
  path_exists : string -> FS * Env -> bool;
  (** [Path(p).mkdir(parents=True, exist_ok=True)] *)
  mkdir_parents : string -> FS * Env -> option exn * (FS * Env);
  (** every path below a directory, in the order the traversal yields them *)
  walk : string -> FS * Env -> list string;
  (** [list(Path(d).glob('**/*'))]; [None] when the traversal raises *)
  glob_all : string -> FS * Env -> option (list string);
  (** entering and leaving [tempfile.TemporaryDirectory()] *)
  mkdtemp : FS * Env -> string * (FS * Env);
  rmtree : string -> FS * Env -> FS * Env;
  (** the name [tempfile.NamedTemporaryFile(suffix=...)] chooses *)
  mkstemp_name : string -> FS * Env -> string;
  (** [str(Path(s))] *)
  path_str : string -> string
}.

Definition World `{Platform} : Type := FS * Env.

(** The state a script runs in: the world, and the commands started so far,
    oldest first (a record of what was run, which no script reads). *)
Record State `{Platform} := {
  world : World;
  calls : list (list string)
}.

(** How a call ends: it returns, raises, or leaves through [sys.exit]. *)
Inductive outcome (A : Type) :=
  | Returned (a : A)
  | Raised (e : exn)
  | Exited (code : Z).
Arguments Returned {A} a.
Arguments Raised {A} e.
Arguments Exited {A} code.

Definition Script `{Platform} (A : Type) : Type := State -> outcome A * State.

Definition sret `{Platform} {A} (a : A) : Script A := fun st => (Returned a, st).

Definition sbind `{Platform} {A B} (m : Script A) (k : A -> Script B) : Script B :=
  fun st =>
    match m st with
    | (Returned a, st') => k a st'
    | (Raised e, st') => (Raised e, st')
    | (Exited c, st') => (Exited c, st')
    end.

Definition raise `{Platform} {A} (e : exn) : Script A := fun st => (Raised e, st).

(** [sys.exit(code)] *)
Definition sys_exit `{Platform} {A} (code : Z) : Script A :=
  fun st => (Exited code, st).

(** [try: body / except ...: handler]; [handler e] is [None] for an
    exception that no [except] clause names, which then propagates. *)
Definition try_except `{Platform} {A} (body : Script A)
           (handler : exn -> option (Script A)) : Script A :=
  fun st =>
    match body st with
    | (Raised e, st') =>
        match handler e with
        | Some h => h st'
        | None => (Raised e, st')
        end
    | r => r
    end.

(** [try: body / finally: cleanup] *)
Definition try_finally `{Platform} {A} (body : Script A) (cleanup : Script unit)
  : Script A :=
  fun st =>
    let (r, st') := body st in
    match cleanup st' with
    | (Returned _, st'') => (r, st'')
    | (Raised e, st'') => (Raised e, st'')
    | (Exited c, st'') => (Exited c, st'')
    end.

Declare Scope script_scope.
Delimit Scope script_scope with script.
Notation "x <~ m ;; k" := (sbind m (fun x => k))
  (at level 61, m at next level, right associativity) : script_scope.
Notation "m ;;; k" := (sbind m (fun _ => k))
  (at level 61, right associativity) : script_scope.

(** An operation on the world that cannot fail. *)
Definition on_world `{Platform} {A} (f : World -> A * World) : Script A :=
  fun st =>
    let (a, w) := f (world st) in
    (Returned a, {| world := w; calls := calls st |}).

Definition read_world `{Platform} {A} (f : World -> A) : Script A :=
  fun st => (Returned (f (world st)), st).

(** [subprocess.run(cmd, capture_output=True, text=True, check=check,
    cwd=cwd, timeout=timeout)] *)
Definition subprocess_run `{Platform} (cmd : list string) (check : bool)
           (cwd : option string) (timeout : option Z)
  : Script CompletedProcess :=
  fun st =>
    let (r, w) := spawn cmd cwd timeout (world st) in
    let st' := {| world := w; calls := calls st ++ [cmd] |} in
    match r with
    | Completed rc out err =>
        if check && negb (rc =? 0)
        then (Raised (CalledProcessError rc), st')
        else (Returned {| returncode := rc; stdout := out; stderr := err |},
              st')
    | SpawnError e => (Raised e, st')
    end.

(** *** examples/unity_extraction.py *)

Definition chars (s : string) : list ascii := list_ascii_of_string s.

Fixpoint is_prefix (p l : list ascii) : bool :=
  match p, l with
  | [], _ => true
  | _ :: _, [] => false
  | x :: p', y :: l' => Ascii.eqb x y && is_prefix p' l'
  end.

(** [s.endswith(suffix)] *)
Definition ends_with (s suffix : string) : bool :=
  is_prefix (rev (chars suffix)) (rev (chars s)).

(** The final component of a path. *)
Fixpoint last_component (acc : list ascii) (l : list ascii) : list ascii :=
  match l with
  | [] => acc
  | c :: tl =>
      if Ascii.eqb c "/"%char then last_component [] tl
      else last_component (acc ++ [c]) tl
  end.

Definition path_name (p : string) : string :=
  string_of_list_ascii (last_component [] (chars p)).

(** The match of a name against a pattern ["*" + literal], the only patterns
    the script builds: the name ends with the literal. *)
Definition glob_match (pattern name : string) : bool :=
  match pattern with
  | String "*"%char literal => ends_with name literal
  | _ => String.eqb pattern name
  end.

(** [Path(directory).rglob(pattern)] *)
Definition rglob `{Platform} (directory pattern : string) (w : World)
  : list string :=
  filter (fun p => glob_match pattern (path_name p)) (walk directory w).

Definition unity_extensions : list string :=
  [".unity3d"; ".assets"; ".sharedAssets"; ".resource"; ".resS"]%string.

Definition find_unity_files `{Platform} (directory : string) (w : World)
  : list string :=
  fold_left (fun unity_files ext =>
               unity_files ++ rglob directory ("*" ++ ext)%string w)
            unity_extensions [].

Definition extract_cmd (unity_file output_dir : string) : list string :=
  ["aegis"; "extract"; unity_file; "-o"; output_dir; "--plugin"; "unity";
   "--convert"; "--format"; "png"; "--format"; "gltf"; "--format"; "ogg";
   "--compliance-check"; "--verbose"]%string.

Definition extract_unity_assets `{Platform} (unity_file output_dir : string)
  : Script bool :=
  let cmd := extract_cmd unity_file output_dir in
  try_except
    (sbind (subprocess_run cmd true None None) (fun _ => sret true))
    (fun e => match e with
              | CalledProcessError _ => Some (sret false)
              | FileNotFoundError => Some (sret false)
              | _ => None
              end).

Definition list_cmd (unity_file : string) : list string :=
  ["aegis"; "list"; unity_file; "--plugin"; "unity"; "--details"]%string.

Definition list_unity_assets `{Platform} (unity_file : string) : Script bool :=
  let cmd := list_cmd unity_file in
  try_except
    (sbind (subprocess_run cmd true None None) (fun _ => sret true))
    (fun e => match e with
              | CalledProcessError _ => Some (sret false)
              | FileNotFoundError => Some (sret false)
              | _ => None
              end).

Definition compliance_cmd (unity_file : string) : list string :=
  ["aegis"; "compliance"; unity_file; "--plugin"; "unity"]%string.

Definition check_compliance `{Platform} (unity_file : string) : Script bool :=
  let cmd := compliance_cmd unity_file in
  try_except
    (sbind (subprocess_run cmd true None None) (fun _ => sret true))
    (fun e => match e with
              | CalledProcessError _ => Some (sret false)
              | _ => None
              end).

(** [sys.argv[i]], read only where the length was checked. *)
Definition argv_at (argv : list string) (i : nat) : string :=
  nth i argv ""%string.

(** The guard shared by the [list], [extract] and [compliance] commands:
    the path argument must be there and must exist. *)
Definition require_file `{Platform} (argv : list string) : Script string :=
  if (length argv <? 3)%nat then sys_exit 1
  else
    let unity_file := path_str (argv_at argv 2) in
    sbind (read_world (path_exists unity_file)) (fun found =>
    if negb found then sys_exit 1 else sret unity_file).

Definition unity_extraction_main `{Platform} (argv : list string) : Script unit :=
  if (length argv <? 2)%nat then sys_exit 1
  else
    let command := argv_at argv 1 in
    if String.eqb command "find" then
      if (length argv <? 3)%nat then sys_exit 1
      else
        let directory := argv_at argv 2 in
        sbind (read_world (find_unity_files directory)) (fun _ => sret tt)
    else if String.eqb command "list" then
      sbind (require_file argv) (fun unity_file =>
      sbind (list_unity_assets unity_file) (fun _ => sret tt))
    else if String.eqb command "extract" then
      sbind (require_file argv) (fun unity_file =>
      let output_dir :=
        if (3 <? length argv)%nat then path_str (argv_at argv 3)
        else path_str "./extracted" in
      sbind (fun st =>
               let (r, w) := mkdir_parents output_dir (world st) in
               let st' := {| world := w; calls := calls st |} in
               match r with
               | Some e => (Raised e, st')
               | None => (Returned tt, st')
               end) (fun _ =>
      sbind (extract_unity_assets unity_file output_dir) (fun _ => sret tt)))
    else if String.eqb command "compliance" then
      sbind (require_file argv) (fun unity_file =>
      sbind (check_compliance unity_file) (fun _ => sret tt))
    else sys_exit 1.

(** *** test_unity_integration.py *)

Definition project_dir : string := "C:\Users\17577\Desktop\aegis-assets".

Definition unity_plugin_dir : string :=
  "C:\Users\17577\Desktop\aegis-assets\aegis-plugins\unity".

(** [except Exception as e: ...; return v] *)
Definition except_Exception `{Platform} {A} (v : Script A)
  : exn -> option (Script A) := fun _ => Some v.

Definition test_compilation `{Platform} : Script bool :=
  try_except
    (sbind (subprocess_run ["cargo"; "check"; "--bin"; "aegis"]%string false
                           (Some project_dir) (Some 60)) (fun result =>
     if negb (returncode result =? 0) then sret false
     else
       sbind (subprocess_run ["cargo"; "check"]%string false
                             (Some unity_plugin_dir) (Some 60)) (fun result =>
       if negb (returncode result =? 0) then sret false
       else sret true)))
    (except_Exception (sret false)).

Definition aegis_cmd (args : list string) : list string :=
  ["cargo"; "run"; "--bin"; "aegis"; "--"]%string ++ args.

(** [with tempfile.TemporaryDirectory() as temp_dir: body]: the directory is
    removed however [body] ends. *)
Definition with_temporary_directory `{Platform} {A}
           (body : string -> Script A) : Script A :=
  sbind (on_world mkdtemp) (fun temp_dir =>
  try_finally (body temp_dir)
              (on_world (fun w => (tt, rmtree temp_dir w)))).

Definition test_aegis_cli `{Platform} (unity_file_path : string) : Script bool :=
  sbind
    (try_except
       (sbind (subprocess_run (aegis_cmd ["plugins"%string]) false
                              (Some project_dir) (Some 30)) (fun result =>
        if returncode result =? 0 then sret true else sret false))
       (except_Exception (sret false)))
    (fun plugins_ok =>
  if negb plugins_ok then sret false
  else
  sbind
    (try_except
       (sbind (subprocess_run (aegis_cmd ["list"%string; unity_file_path]) false
                              (Some project_dir) (Some 30))
              (fun _ => sret tt))
       (except_Exception (sret tt)))
    (fun _ =>
  with_temporary_directory (fun temp_dir =>
    try_except
      (sbind (subprocess_run
                (aegis_cmd ["extract"%string; unity_file_path; "-o"%string;
                            temp_dir; "--verbose"%string])
                false (Some project_dir) (Some 30)) (fun result =>
       if returncode result =? 0 then
         sbind (fun st => match glob_all temp_dir (world st) with
                          | Some output_files => (Returned output_files, st)
                          | None => (Raised OtherError, st)
                          end) (fun _ => sret true)
       else sret false))
      (except_Exception (sret false))))).

Definition fs_remove (fs : FS) (path : string) : FS :=
  fun p => if String.eqb p path then None else fs p.

(** [with tempfile.NamedTemporaryFile(suffix=suffix, delete=False) as t:
    name = t.name]: an empty file is left under the name chosen. *)
Definition named_temporary_file `{Platform} (suffix : string) : Script string :=
  on_world (fun w =>
    let name := mkstemp_name suffix w in
    (name, (fs_put (fst w) name [], snd w))).

(** A generator run on the file system of the world. *)
Definition on_fs `{Platform} (gen : FS -> option FS) : Script unit :=
  fun st =>
    match gen (fst (world st)) with
    | Some fs' =>
        (Returned tt, {| world := (fs', snd (world st)); calls := calls st |})
    | None => (Raised OtherError, st)
    end.

(** [os.unlink(path)] *)
Definition os_unlink `{Platform} (path : string) : Script unit :=
  fun st =>
    match fst (world st) path with
    | Some _ =>
        (Returned tt,
         {| world := (fs_remove (fst (world st)) path, snd (world st));
            calls := calls st |})
    | None => (Raised FileNotFoundError, st)
    end.

(** [try: body / except: pass], which also stops a [sys.exit]. *)
Definition try_except_pass `{Platform} (body : Script unit) : Script unit :=
  fun st => (Returned tt, snd (body st)).

Definition integration_main `{Platform} : Script bool :=
  sbind test_compilation (fun compiled =>
  if negb compiled then sret false
  else
  sbind (named_temporary_file ".unity3d") (fun test_unity_file =>
  try_finally
    (sbind (on_fs (create_test_unity_file test_unity_file)) (fun _ =>
     sbind (test_aegis_cli test_unity_file) (fun success =>
     sret success)))
    (try_except_pass (os_unlink test_unity_file)))).

(** A platform with no processes and no directories, on which every command
    fails to start. *)
Definition bare_platform : Platform := {|
  Env := unit;
  spawn := fun _ _ _ w => (SpawnError FileNotFoundError, w);
  path_exists := fun p w => match fst w p with Some _ => true | None => false end;
  mkdir_parents := fun _ w => (None, w);
  walk := fun _ _ => [];
  glob_all := fun _ _ => Some [];
  mkdtemp := fun w => ("/tmp/tmpdir"%string, w);
  rmtree := fun _ w => w;
  mkstemp_name := fun suffix _ => ("/tmp/tmpfile" ++ suffix)%string;
  path_str := fun s => s
|}.

(** Whether a process ran to completion with return code 0. *)
Definition completes_ok (r : run_result) : bool :=
  match r with
  | Completed rc _ _ => rc =? 0
  | SpawnError _ => false
  end.

Definition is_some {A} (o : option A) : bool :=
  match o with
  | Some _ => true
  | None => false
  end.

(** A platform on which every command completes with return code 0 and a
    game directory holds a few files. *)
Definition sample_platform : Platform := {|
  Env := unit;
  spawn := fun _ _ _ w => (Completed 0 "" "", w);
  path_exists := fun p w => is_some (fst w p);
  mkdir_parents := fun _ w => (None, w);
  walk := fun _ _ =>
    ["game/level1.unity3d"; "game/data/sharedassets0.assets";
     "game/data/notes.txt"; "game/audio.resS"]%string;
  glob_all := fun _ _ => Some [];
  mkdtemp := fun w => ("/tmp/tmpdir"%string, w);
  rmtree := fun _ w => w;
  mkstemp_name := fun suffix _ => ("/tmp/tmpfile" ++ suffix)%string;
  path_str := fun s => s
|}.

(** The outcomes of starting a process that the [except] clauses of
    [extract_unity_assets] and [list_unity_assets] turn into a return value:
    everything but a time-out or another error of the system. *)
Definition handled_by_wrapper (r : run_result) : bool :=
  match r with
  | Completed _ _ _ => true
  | SpawnError (CalledProcessError _) => true
  | SpawnError FileNotFoundError => true
  | SpawnError _ => false
  end.

(** The output directory [main] chooses for the [extract] command. *)
Definition chosen_output_dir `{Platform} (argv : list string) : string :=
  if (3 <? length argv)%nat then path_str (argv_at argv 3)
  else path_str "./extracted".

Definition sample_fs : FS :=
  fun p => if String.eqb p "level1.unity3d" then Some [] else None.

Definition sample_state : @State sample_platform :=
  @Build_State sample_platform (sample_fs, tt) [].

Definition bare_state : @State bare_platform :=
  @Build_State bare_platform (sample_fs, tt) [].

(** A platform on which no directory can be made. *)
Definition locked_platform : Platform := {|
  Env := unit;
  spawn := fun _ _ _ w => (Completed 0 "" "", w);
  path_exists := fun p w => is_some (fst w p);
  mkdir_parents := fun _ w => (Some OtherError, w);
  walk := fun _ _ => [];
  glob_all := fun _ _ => None;
  mkdtemp := fun w => ("/tmp/tmpdir"%string, w);
  rmtree := fun _ w => w;
  mkstemp_name := fun suffix _ => ("/tmp/tmpfile" ++ suffix)%string;
  path_str := fun s => s
|}.

Definition locked_state : @State locked_platform :=
  @Build_State locked_platform (sample_fs, tt) [].

Definition cargo_check_cli : list string :=
  ["cargo"; "check"; "--bin"; "aegis"]%string.

Definition cargo_check_plugin : list string := ["cargo"; "check"]%string.






(** * Properties *)

(** ** Bytes and integers *)

Lemma Z_of_byte_range (x : byte) : 0 <= Z_of_byte x < 256.
Proof.
  unfold Z_of_byte. pose proof (Byte.to_N_bounded x) as H.
  apply N2Z.inj_le in H. simpl in H. lia.
Qed.

Lemma byte_of_Z_of_byte (x : byte) : byte_of_Z (Z_of_byte x) = x.
Proof.
  unfold byte_of_Z. rewrite Z.mod_small by apply Z_of_byte_range.
  unfold Z_of_byte. rewrite N2Z.id, Byte.of_to_N. reflexivity.
Qed.

Lemma Z_of_byte_of_Z (z : Z) : Z_of_byte (byte_of_Z z) = z mod 256.
Proof.
  unfold byte_of_Z, Z_of_byte.
  pose proof (Z.mod_pos_bound z 256 ltac:(lia)) as Hb.
  destruct (Byte.of_N (Z.to_N (z mod 256))) as [y|] eqn:E.
  - apply Byte.to_of_N in E. rewrite E. rewrite Z2N.id; lia.
  - apply Byte.of_N_None_iff in E. lia.
Qed.

Lemma be_decode_snoc (bs : bytes) (x : byte) :
  be_decode (bs ++ [x]) = be_decode bs * 256 + Z_of_byte x.
Proof. unfold be_decode. rewrite fold_left_app. reflexivity. Qed.

Lemma be_bytes_length (w : nat) (n : Z) : length (be_bytes w n) = w.
Proof.
  revert n. induction w as [|w IH]; intros n; simpl; [reflexivity|].
  rewrite length_app, IH. simpl. lia.
Qed.

Lemma le_bytes_length (w : nat) (n : Z) : length (le_bytes w n) = w.
Proof.
  revert n. induction w as [|w IH]; intros n; simpl; [reflexivity|].
  now rewrite IH.
Qed.

(** Encoding what was decoded gives back the bytes. *)
Lemma be_bytes_decode (bs : bytes) : be_bytes (length bs) (be_decode bs) = bs.
Proof.
  induction bs as [|x bs IH] using rev_ind; [reflexivity|].
  rewrite length_app, Nat.add_comm. simpl.
  rewrite be_decode_snoc.
  pose proof (Z_of_byte_range x) as Hx.
  replace ((be_decode bs * 256 + Z_of_byte x) / 256) with (be_decode bs)
    by (apply Z.div_unique with (r := Z_of_byte x); lia).
  replace ((be_decode bs * 256 + Z_of_byte x) mod 256) with (Z_of_byte x)
    by (apply Z.mod_unique with (q := be_decode bs); lia).
  rewrite IH, byte_of_Z_of_byte. reflexivity.
Qed.

(** Decoding what was encoded gives back the integer, reduced to the width. *)
Lemma be_decode_bytes (w : nat) (n : Z) :
  be_decode (be_bytes w n) = n mod 2 ^ (8 * Z.of_nat w).
Proof.
  revert n. induction w as [|w IH]; intros n.
  - simpl. now rewrite Z.mod_1_r.
  - cbn [be_bytes]. rewrite be_decode_snoc, IH, Z_of_byte_of_Z.
    replace (8 * Z.of_nat (S w)) with (8 * Z.of_nat w + 8) by lia.
    rewrite Z.pow_add_r by lia. change (2 ^ 8) with 256.
    rewrite (Z.mul_comm (2 ^ (8 * Z.of_nat w)) 256).
    rewrite Z.rem_mul_r, Z.mod_mod by lia. lia.
Qed.

Lemma le_decode_bytes (w : nat) (n : Z) :
  le_decode (le_bytes w n) = n mod 2 ^ (8 * Z.of_nat w).
Proof.
  revert n. induction w as [|w IH]; intros n.
  - simpl. now rewrite Z.mod_1_r.
  - cbn [le_bytes le_decode fold_right]. fold (le_decode (le_bytes w (n / 256))).
    rewrite IH, Z_of_byte_of_Z.
    replace (8 * Z.of_nat (S w)) with (8 * Z.of_nat w + 8) by lia.
    rewrite Z.pow_add_r by lia. change (2 ^ 8) with 256.
    rewrite (Z.mul_comm (2 ^ (8 * Z.of_nat w)) 256).
    rewrite Z.rem_mul_r, Z.mod_mod by lia. lia.
Qed.

Lemma in_range_spec (w : nat) (n : Z) :
  in_range w n = true <-> 0 <= n < 2 ^ (8 * Z.of_nat w).
Proof. unfold in_range. rewrite andb_true_iff, Z.leb_le, Z.ltb_lt. tauto. Qed.

(** [struct.unpack] inverts [struct.pack] on every integer in range. *)
Lemma pack_be_decode (f : int_format) (n : Z) (data : bytes) :
  pack_be f n = Some data -> be_decode data = n /\ length data = int_width f.
Proof.
  unfold pack_be. destruct (in_range _ n) eqn:E; [|discriminate].
  intros [= <-]. apply in_range_spec in E.
  rewrite be_decode_bytes, be_bytes_length, Z.mod_small; auto.
Qed.

Lemma pack_le_decode (f : int_format) (n : Z) (data : bytes) :
  pack_le f n = Some data -> le_decode data = n /\ length data = int_width f.
Proof.
  unfold pack_le. destruct (in_range _ n) eqn:E; [|discriminate].
  intros [= <-]. apply in_range_spec in E.
  rewrite le_decode_bytes, le_bytes_length, Z.mod_small; auto.
Qed.

(** ** The layout readers *)

Lemma read_exact_sound (n : nat) (bs x rest : bytes) :
  read_exact n bs = Ok (x, rest) -> x ++ rest = bs /\ length x = n.
Proof.
  unfold read_exact. destruct (n <=? length bs)%nat eqn:E; [|discriminate].
  apply Nat.leb_le in E. intros [= <- <-]. split.
  - apply firstn_skipn.
  - rewrite length_firstn. lia.
Qed.

Lemma read_be_sound (w : nat) (bs rest : bytes) (z : Z) :
  read_be w bs = Ok (z, rest) -> be_bytes w z ++ rest = bs.
Proof.
  unfold read_be. destruct (read_exact w bs) as [[x r]|] eqn:E; [|discriminate].
  intros [= <- <-]. apply read_exact_sound in E as [<- <-].
  now rewrite be_bytes_decode.
Qed.

Lemma read_cstring_sound (k : nat) (bs s rest : bytes) :
  read_cstring k bs = Ok (s, rest) ->
  s ++ x00 :: rest = bs /\ ~ In x00 s /\ (length s < k)%nat.
Proof.
  revert bs s rest. induction k as [|k IH]; intros bs s rest; simpl; [discriminate|].
  destruct bs as [|x tl]; [discriminate|].
  destruct (Byte.eqb x x00) eqn:E.
  - apply Byte.byte_dec_bl in E. subst x. intros [= <- <-].
    simpl. repeat split; auto. lia.
  - destruct (read_cstring k tl) as [[s' r']|] eqn:R; [|discriminate].
    intros [= <- <-]. destruct (IH _ _ _ R) as (Happ & Hnin & Hlen).
    simpl. rewrite Happ. repeat split; [|lia].
    intros [->|Hin]; [|contradiction].
    now rewrite (Byte.byte_dec_lb eq_refl) in E.
Qed.

(** A larger scan bound reads the same string. *)
Lemma read_cstring_mono (k k' : nat) (bs : bytes) (r : bytes * bytes) :
  read_cstring k bs = Ok r -> (k <= k')%nat -> read_cstring k' bs = Ok r.
Proof.
  revert k' bs r. induction k as [|k IH]; intros k' bs r; simpl; [discriminate|].
  intros H Hle. destruct k' as [|k']; [lia|]. simpl.
  destruct bs as [|x tl]; [discriminate|].
  destruct (Byte.eqb x x00); [exact H|].
  destruct (read_cstring k tl) as [[s' r']|] eqn:R; [|discriminate].
  rewrite (IH k' _ _ R) by lia. exact H.
Qed.

Ltac step_read H :=
  match type of H with
  | (match ?e with Ok _ => _ | Err _ => _ end) = Ok _ =>
      let E := fresh "E" in
      destruct e as [[? ?]|] eqn:E; [|discriminate H]
  | (if ?c then _ else _) = Ok _ =>
      let E := fresh "E" in
      destruct c eqn:E; [|discriminate H]
  end.

(** Re-serializing a parsed header reproduces the bytes it was read from. *)
Lemma parse_header_sound (k : nat) (bs rest : bytes) (h : BundleHeader) :
  parse_header k bs = Ok (h, rest) -> serialize_header h ++ rest = bs.
Proof.
  unfold parse_header. intros H. repeat step_read H.
  injection H as <- <-. unfold serialize_header. simpl.
  repeat match goal with
         | E : read_be _ _ = Ok _ |- _ => apply read_be_sound in E
         | E : read_cstring _ _ = Ok _ |- _ =>
             apply read_cstring_sound in E as (E & _ & _)
         | E : read_exact _ _ = Ok _ |- _ =>
             apply read_exact_sound in E as (E & _)
         end.
  subst. repeat (rewrite <- app_assoc; simpl). reflexivity.
Qed.

Lemma parse_header_mono (k k' : nat) (bs : bytes) (r : BundleHeader * bytes) :
  parse_header k bs = Ok r -> (k <= k')%nat -> parse_header k' bs = Ok r.
Proof.
  unfold parse_header. intros H Hle. repeat step_read H.
  repeat match goal with
         | E : read_cstring k _ = Ok _ |- _ =>
             apply (fun e => read_cstring_mono k k' _ _ e Hle) in E; rewrite E; clear E
         | E : read_be _ _ = Ok _ |- _ => rewrite E; clear E
         | E : read_exact _ _ = Ok _ |- _ => rewrite E; clear E
         | E : existsb _ _ = true |- _ => rewrite E; clear E
         end.
  exact H.
Qed.

Lemma parse_entry_mono (k k' : nat) (bs : bytes) (r : DirectoryEntry * bytes) :
  parse_entry k bs = Ok r -> (k <= k')%nat -> parse_entry k' bs = Ok r.
Proof.
  unfold parse_entry. intros H Hle. repeat step_read H.
  repeat match goal with
         | E : read_cstring k _ = Ok _ |- _ =>
             apply (fun e => read_cstring_mono k k' _ _ e Hle) in E; rewrite E; clear E
         | E : read_be _ _ = Ok _ |- _ => rewrite E; clear E
         | E : read_exact _ _ = Ok _ |- _ => rewrite E; clear E
         | E : existsb _ _ = true |- _ => rewrite E; clear E
         end.
  exact H.
Qed.

Lemma parse_directory_mono (k k' n : nat) (bs : bytes)
      (r : list DirectoryEntry * bytes) :
  parse_directory k n bs = Ok r -> (k <= k')%nat ->
  parse_directory k' n bs = Ok r.
Proof.
  revert bs r. induction n as [|n IH]; intros bs r; simpl; [auto|].
  intros H Hle.
  destruct (parse_entry k bs) as [[e r1]|] eqn:E; [|discriminate].
  rewrite (parse_entry_mono _ _ _ _ E Hle).
  destruct (parse_directory k n r1) as [[es r2]|] eqn:D; [|discriminate].
  rewrite (IH _ _ D Hle). exact H.
Qed.

Lemma parse_bundle_mono (k k' nb ne : nat) (bs : bytes) (bd : Bundle) :
  parse_bundle k nb ne bs = Ok bd -> (k <= k')%nat ->
  parse_bundle k' nb ne bs = Ok bd.
Proof.
  unfold parse_bundle. intros H Hle.
  destruct (parse_header k bs) as [[h r1]|] eqn:E1; [|discriminate].
  rewrite (parse_header_mono _ _ _ _ E1 Hle).
  destruct (parse_blocks nb r1) as [[bl r2]|]; [|discriminate].
  destruct (parse_directory k ne r2) as [[d r3]|] eqn:E3; [|discriminate].
  rewrite (parse_directory_mono _ _ _ _ _ E3 Hle). exact H.
Qed.

(** ** What the generators write *)

Lemma written_with_open (body : FileM unit) (path : string) (fs : FS) :
  written (fun p => with_open_wb p body) path fs = run body.
Proof.
  unfold written, with_open_wb, run.
  destruct (body []) as [[[] content]|]; [|reflexivity].
  unfold fs_put. now rewrite String.eqb_refl.
Qed.

(** The padding step brings any shorter file to exactly the target length,
    appending zeros only; a longer file is left as it is. *)
Lemma pad_to_short (sz : Z) (f : bytes) :
  Z.of_nat (length f) <= sz ->
  pad_to sz f = Some (tt, f ++ zeros (sz - Z.of_nat (length f))) /\
  Z.of_nat (length (f ++ zeros (sz - Z.of_nat (length f)))) = sz.
Proof.
  intros Hle. unfold pad_to, bind, tell, zeros. split.
  - destruct (0 <? sz - Z.of_nat (length f)) eqn:E.
    + reflexivity.
    + apply Z.ltb_ge in E.
      replace (sz - Z.of_nat (length f)) with 0 by lia.
      unfold ret. simpl. now rewrite app_nil_r.
  - rewrite length_app, repeat_length. lia.
Qed.

Lemma pad_to_long (sz : Z) (f : bytes) :
  sz < Z.of_nat (length f) -> pad_to sz f = Some (tt, f).
Proof.
  intros Hlt. unfold pad_to, bind, tell.
  destruct (0 <? sz - Z.of_nat (length f)) eqn:E; [|reflexivity].
  apply Z.ltb_lt in E. lia.
Qed.

Ltac run_generator :=
  intros path fs; unfold create_minimal_unityfs_bundle,
    create_texture_demo_bundle, create_test_unity_file;
  rewrite written_with_open.

Ltac solve_bundle k0 :=
  run_generator; eexists; eexists;
  split; [vm_compute; reflexivity|];
  split; [apply (parse_bundle_mono k0); [vm_compute; reflexivity|lia]|].

Ltac solve_header k0 :=
  run_generator; eexists; eexists; eexists;
  split; [vm_compute; reflexivity|];
  split; [apply (parse_header_mono k0); [vm_compute; reflexivity|lia]|].

(** C5: every fixture has header flags 0; its two block-table size fields
    are equal and every block descriptor has equal compressed and
    uncompressed sizes.  The 100 bytes of dummy data of the integration
    fixture fill its declared block table of ten descriptors. *)
Theorem no_compression_sizes_agree (k : nat) :
  writes_bundle create_minimal_unityfs_bundle (21 + k) 1 1
    (fun _ bd => sizes_agree bd /\ length (blocks bd) = 1%nat) /\
  writes_bundle create_texture_demo_bundle (21 + k) 2 2
    (fun _ bd => sizes_agree bd /\ length (blocks bd) = 2%nat) /\
  writes_bundle create_test_unity_file (21 + k) 10 0
    (fun _ bd => sizes_agree bd /\
                 Z.of_nat (10 * length (blocks bd))
                   = uncompressed_blocks_info_size (header bd)).
Proof.
  repeat split; solve_bundle 21%nat; simpl;
    repeat split; repeat constructor.
Qed.

(** C2: the directory entries the generators write lie outside the virtual
    address space of the blocks written with them: in the minimal bundle the
    entry (128, 64) ends at 192 past a space of 128 bytes; in the texture
    bundle the entries (200, 256) and (456, 128) end at 456 and 584 past a
    space of 384 bytes. *)
Theorem directory_entries_out_of_bounds (k : nat) :
  writes_bundle create_minimal_unityfs_bundle (21 + k) 1 1
    (fun _ bd =>
       virtual_length (blocks bd) = 128 /\
       map (fun e => (offset e, size e)) (directory bd) = [(128, 64)] /\
       Forall (fun e => offset e + size e > virtual_length (blocks bd))
              (directory bd)) /\
  writes_bundle create_texture_demo_bundle (21 + k) 2 2
    (fun _ bd =>
       virtual_length (blocks bd) = 384 /\
       map (fun e => (offset e, size e)) (directory bd)
         = [(200, 256); (456, 128)] /\
       Forall (fun e => offset e + size e > virtual_length (blocks bd))
              (directory bd)).
Proof.
  split; solve_bundle 21%nat; simpl;
    repeat split; repeat constructor.
Qed.

(** C3: the two demo generators begin their files with the header of the
    layout, holding the values they write; the integration-test generator
    writes the engine version string right after the signature, so that the
    four bytes the layout reads as the format version are the characters
    "2022" and the engine version read is what remains of the string. *)
Theorem header_layout_of_generators (k : nat) :
  writes_header create_minimal_unityfs_bundle (13 + k)
    (fun _ h _ =>
       h = {| signature := b "UnityFS" ++ [x00]; format_version := 7;
              engine_version := b "2022.3.15f1";
              engine_revision := b "b58023a2fb5c";
              bundle_size := 256; compressed_blocks_info_size := 48;
              uncompressed_blocks_info_size := 48; flags := 0 |}) /\
  writes_header create_texture_demo_bundle (13 + k)
    (fun _ h _ =>
       h = {| signature := b "UnityFS2"; format_version := 8;
              engine_version := b "2023.1.0f1";
              engine_revision := b "c1b978022a1a";
              bundle_size := 512; compressed_blocks_info_size := 64;
              uncompressed_blocks_info_size := 64; flags := 0 |}) /\
  writes_header create_test_unity_file (13 + k)
    (fun content h _ =>
       firstn 12 (skipn signature_length content) = b "2022.3.15f1" ++ [x00] /\
       format_version h = be_decode (b "2022") /\
       engine_version h = b ".3.15f1" /\
       engine_version h <> b "2022.3.15f1").
Proof.
  repeat split; solve_header 13%nat; simpl; repeat split; discriminate.
Qed.

(** C7: each generator declares a bundle size no smaller than the header it
    writes (57, 56 and 49 bytes against 256, 512 and 1024), and the file,
    whose bytes past the last record written (at 108, 145 and 149) are the
    zero padding, has exactly the declared length. *)
Theorem declared_size_is_file_length (k : nat) :
  writes_header create_minimal_unityfs_bundle (13 + k) (declares_size 108) /\
  writes_header create_texture_demo_bundle (13 + k) (declares_size 145) /\
  writes_header create_test_unity_file (13 + k) (declares_size 149).
Proof.
  repeat split; solve_header 13%nat; vm_compute; repeat split; discriminate.
Qed.

(** ** Round trip of the header *)

Lemma header_bytes_are_prefix (k : nat) (bs rest : bytes) (h : BundleHeader) :
  parse_header k bs = Ok (h, rest) ->
  serialize_header h = firstn (length bs - length rest) bs.
Proof.
  intros H. apply parse_header_sound in H. subst bs.
  rewrite length_app, Nat.add_sub.
  rewrite firstn_app, Nat.sub_diag, firstn_all. simpl. now rewrite app_nil_r.
Qed.

Lemma read_exact_app (x rest : bytes) :
  read_exact (length x) (x ++ rest) = Ok (x, rest).
Proof.
  unfold read_exact. rewrite length_app.
  replace (length x <=? length x + length rest)%nat with true
    by (symmetry; apply Nat.leb_le; lia).
  rewrite firstn_app, Nat.sub_diag, firstn_all, skipn_app, Nat.sub_diag,
    skipn_all. simpl. now rewrite app_nil_r.
Qed.

Lemma read_be_app (w : nat) (z : Z) (rest : bytes) :
  in_range w z = true -> read_be w (be_bytes w z ++ rest) = Ok (z, rest).
Proof.
  intros H. apply in_range_spec in H. unfold read_be.
  rewrite <- (be_bytes_length w z) at 1. rewrite read_exact_app.
  rewrite be_decode_bytes, Z.mod_small by assumption. reflexivity.
Qed.

Lemma read_cstring_app (k : nat) (s rest : bytes) :
  ~ In x00 s -> (length s < k)%nat ->
  read_cstring k (s ++ x00 :: rest) = Ok (s, rest).
Proof.
  revert k. induction s as [|x s IH]; intros k Hnin Hlen.
  - destruct k; [simpl in Hlen; lia|]. reflexivity.
  - destruct k; [simpl in Hlen; lia|]. simpl.
    destruct (Byte.eqb x x00) eqn:E.
    + apply Byte.byte_dec_bl in E. subst x. exfalso. apply Hnin. now left.
    + rewrite IH; [reflexivity| |simpl in Hlen; lia].
      intros Hin. apply Hnin. now right.
Qed.

(** Every valid header is read back from its serialization. *)
Lemma parse_serialize_header (k : nat) (h : BundleHeader) (rest : bytes) :
  valid_header k h ->
  parse_header k (serialize_header h ++ rest) = Ok (h, rest).
Proof.
  intros (Hsig & Hv & (He & Hel) & (Hr & Hrl) & Hb & Hc & Hu & Hf).
  destruct h as [sig ver ev er bsz csz usz fl].
  unfold parse_header, serialize_header.
  cbn [signature format_version engine_version engine_revision bundle_size
       compressed_blocks_info_size uncompressed_blocks_info_size flags] in *.
  assert (Hlen : length sig = signature_length)
    by (destruct Hsig as [<-|[<-|[]]]; reflexivity).
  assert (Hknown : existsb (bytes_eqb sig) known_signatures = true).
  { apply existsb_exists. exists sig. split; [assumption|].
    unfold bytes_eqb. now destruct (list_eq_dec Byte.byte_eq_dec sig sig). }
  rewrite <- Hlen, <- !app_assoc, read_exact_app, Hknown.
  rewrite read_be_app by assumption.
  change (ev ++ [x00] ++ ?t) with (ev ++ x00 :: t).
  rewrite read_cstring_app by assumption.
  change (er ++ [x00] ++ ?t) with (er ++ x00 :: t).
  rewrite read_cstring_app by assumption.
  rewrite !read_be_app by assumption.
  reflexivity.
Qed.

(** The headers of the demo bundles are valid headers. *)
Lemma demo_headers_parse (k : nat) :
  writes_header create_minimal_unityfs_bundle (13 + k)
    (fun _ h _ => valid_header (13 + k) h) /\
  writes_header create_texture_demo_bundle (13 + k)
    (fun _ h _ => valid_header (13 + k) h).
Proof.
  split; solve_header 13%nat; unfold valid_header; simpl;
    repeat split; try lia; intuition discriminate.
Qed.

(** C8: the header of each demo bundle, parsed according to the layout and
    serialized again, gives exactly the header bytes of the file: the bytes
    the parse consumed, followed in the file by the bytes it left. *)
Theorem header_round_trip (k : nat) :
  writes_header create_minimal_unityfs_bundle (13 + k) (round_trips (13 + k)) /\
  writes_header create_texture_demo_bundle (13 + k) (round_trips (13 + k)).
Proof.
  unfold round_trips. destruct (demo_headers_parse k) as [Hmin Htex].
  split; intros path fs;
    [destruct (Hmin path fs) as (content & h & rest & Hw & Hp & Hv)
    |destruct (Htex path fs) as (content & h & rest & Hw & Hp & Hv)];
    exists content, h, rest; (split; [exact Hw|]); (split; [exact Hp|]);
    pose proof (parse_header_sound _ _ _ _ Hp) as Hs;
    (split; [exact Hv|]);
    (split; [eapply header_bytes_are_prefix; exact Hp|]);
    (split; [exact Hs|]); rewrite Hs; exact Hp.
Qed.

(** ** The packing loops *)

Lemma extend_packed_shift {A} (pack : A -> option bytes) (xs : list A)
      (pre : bytes) :
  extend_packed pack xs pre = option_map (app pre) (stream pack xs).
Proof.
  unfold stream. revert pre. induction xs as [|x tl IH]; intros pre; simpl.
  - now rewrite app_nil_r.
  - destruct (pack x) as [d|]; [|reflexivity].
    rewrite (IH (pre ++ d)), (IH d).
    destruct (extend_packed pack tl []) as [data|]; simpl; [|reflexivity].
    now rewrite app_assoc.
Qed.

Lemma stream_cons {A} (pack : A -> option bytes) (x : A) (tl : list A) :
  stream pack (x :: tl)
  = do d <- pack x; option_map (app d) (stream pack tl).
Proof.
  unfold stream at 1. simpl. destruct (pack x) as [d|]; [|reflexivity].
  apply extend_packed_shift.
Qed.

Lemma firstn_exact {A} (n : nat) (x rest : list A) :
  length x = n -> firstn n (x ++ rest) = x.
Proof.
  intros <-. rewrite firstn_app, Nat.sub_diag, firstn_all. simpl.
  apply app_nil_r.
Qed.

Lemma skipn_exact {A} (n : nat) (x rest : list A) :
  length x = n -> skipn n (x ++ rest) = rest.
Proof.
  intros <-. rewrite skipn_app, Nat.sub_diag, skipn_all. reflexivity.
Qed.

(** Whatever indices are packed as unsigned shorts are read back, in order,
    from the front of any buffer that begins with their stream. *)
Lemma shorts_round_trip (xs : list Z) (data rest : bytes) :
  stream (pack_le fmt_H) xs = Some data ->
  read_items unpack_le_H 2 (length xs) (data ++ rest) = Some xs /\
  length data = (2 * length xs)%nat.
Proof.
  revert data. induction xs as [|x tl IH]; intros data.
  - intros [= <-]. split; reflexivity.
  - rewrite stream_cons.
    destruct (pack_le fmt_H x) as [d|] eqn:Ed; [|discriminate].
    destruct (stream (pack_le fmt_H) tl) as [data'|]; [|discriminate].
    intros [= <-]. destruct (IH data' eq_refl) as [Hread Hlen].
    apply pack_le_decode in Ed as [Hdec Hd]. simpl in Hd.
    cbn [read_items length]. rewrite <- app_assoc.
    rewrite (firstn_exact 2 d) by assumption.
    rewrite (skipn_exact 2 d) by assumption.
    assert (Hu : unpack_le_H d = Some x)
      by (unfold unpack_le_H; rewrite Hd, Hdec; reflexivity).
    rewrite Hu, Hread. split; [reflexivity|].
    rewrite length_app. lia.
Qed.

(** [indices] is widened to 32 bits only past 65535; an index out of the
    range of ['<H'] makes the loop raise. *)
Lemma stream_shorts_in_range (xs : list Z) (data : bytes) :
  stream (pack_le fmt_H) xs = Some data -> Forall (fun i => 0 <= i <= 65535) xs.
Proof.
  revert data. induction xs as [|x tl IH]; intros data; [constructor|].
  rewrite stream_cons. unfold pack_le at 1.
  destruct (in_range (int_width fmt_H) x) eqn:E; [|discriminate].
  destruct (stream (pack_le fmt_H) tl) as [data'|] eqn:S; [|discriminate].
  intros _. constructor; [|eapply IH; reflexivity].
  apply in_range_spec in E. simpl in E. lia.
Qed.

(** ** The cube export *)

Ltac cube_returns := split; [vm_compute; reflexivity|].

(** C1: the export of the cube keeps its 8 vertices and 12 triangles (36
    indices), and the bounds its POSITION accessor declares,
    [-0.5,-0.5,-0.5] and [0.5,0.5,0.5], are the componentwise minimum and
    maximum of the position values read back from the binary buffer. *)
Theorem cube_counts_and_bounds :
  exists gltf bin idx pa ia vals,
    create_cube_mesh_gltf = Some (gltf, bin, idx) /\
    attribute_accessor gltf "POSITION" = Some pa /\
    indices_accessor gltf = Some ia /\
    (count pa = 8 /\ Z.of_nat (length positions) = 3 * count pa) /\
    (count ia = 36 /\ Z.of_nat (length idx) = count ia /\
     triangle_count idx = 12) /\
    acc_min pa = Some [neg f0_5; neg f0_5; neg f0_5] /\
    acc_max pa = Some [f0_5; f0_5; f0_5] /\
    accessor_floats bin pa = Some vals /\ vals = positions /\
    (do lo <- acc_min pa; do hi <- acc_max pa; Some (lo, hi))
      = bounding_box vals.
Proof.
  do 6 eexists. cube_returns.
  split; [vm_compute; reflexivity|].
  split; [vm_compute; reflexivity|].
  split; [split; reflexivity|].
  split; [repeat split; reflexivity|].
  split; [reflexivity|].
  split; [reflexivity|].
  split; [vm_compute; reflexivity|].
  split; vm_compute; reflexivity.
Qed.

(** C4: the four streams lie in the buffer one after another in packing
    order, at offsets 0, 96, 168 and 264 with 8, 6, 12 and 36 elements; the
    accessors declare offsets 0, 96, 192 and 256 and counts 8, 8, 8 and 36.
    Only the POSITION accessor agrees with its stream, and the indices read
    through their accessor are not the indices packed. *)
Theorem accessors_disagree_with_streams :
  exists gltf bin idx P N U I ia,
    create_cube_mesh_gltf = Some (gltf, bin, idx) /\
    (stream pack_le_f positions = Some P /\
     stream pack_le_f normals = Some N /\
     stream pack_le_f uvs = Some U /\
     stream (pack_le fmt_H) indices = Some I) /\
    bin = P ++ N ++ U ++ I /\
    [(0, length positions / 3); (length P, length normals / 3);
     (length P + length N, length uvs / 2);
     (length P + length N + length U, length indices)]%nat
      = [(0, 8); (96, 6); (168, 12); (264, 36)]%nat /\
    map (fun a => (byteOffset a, count a)) (accessors gltf)
      = [(0, 8); (96, 8); (192, 8); (256, 36)] /\
    indices_accessor gltf = Some ia /\
    accessor_shorts bin ia = Some ([0; 0; 0; 16256] ++ firstn 32 indices) /\
    accessor_shorts bin ia <> Some indices.
Proof.
  do 8 eexists. cube_returns.
  split; [repeat split; vm_compute; reflexivity|].
  split; [vm_compute; reflexivity|].
  split; [vm_compute; reflexivity|].
  split; [vm_compute; reflexivity|].
  split; [vm_compute; reflexivity|].
  split; [vm_compute; reflexivity|].
  vm_compute. discriminate.
Qed.

(** C6: no index of the cube exceeds 65535; the indices are packed as
    little-endian unsigned 16-bit integers, forming the last stream of the
    buffer; the index accessor declares UNSIGNED_SHORT (5123) and count 36;
    and the packed stream, read back two bytes at a time, is the source
    index list in its order. *)
Theorem index_stream_preserves_order :
  exists gltf bin idx P N U I ia,
    create_cube_mesh_gltf = Some (gltf, bin, idx) /\
    idx = indices /\
    Forall (fun i => 0 <= i <= 65535) indices /\
    (stream pack_le_f positions = Some P /\
     stream pack_le_f normals = Some N /\
     stream pack_le_f uvs = Some U /\
     stream (pack_le fmt_H) indices = Some I) /\
    I = flat_map (le_bytes 2) indices /\
    bin = (P ++ N ++ U) ++ I /\
    read_items unpack_le_H 2 (length indices) I = Some indices /\
    indices_accessor gltf = Some ia /\
    componentType ia = 5123 /\
    count ia = 36 /\
    count ia = Z.of_nat (length indices).
Proof.
  assert (HI : exists I, stream (pack_le fmt_H) indices = Some I)
    by (eexists; vm_compute; reflexivity).
  destruct HI as [I HI].
  destruct (shorts_round_trip indices I [] HI) as [Hread Hlen].
  rewrite app_nil_r in Hread.
  pose proof (stream_shorts_in_range indices I HI) as Hrange.
  assert (HIv : I = flat_map (le_bytes 2) indices)
    by (vm_compute in HI; injection HI as <-; vm_compute; reflexivity).
  do 6 eexists; exists I; eexists.
  cube_returns.
  split; [reflexivity|].
  split; [exact Hrange|].
  split; [repeat split; try exact HI; vm_compute; reflexivity|].
  split; [exact HIv|].
  split; [rewrite HIv; vm_compute; reflexivity|].
  split; [exact Hread|].
  split; [vm_compute; reflexivity|].
  repeat split; reflexivity.
Qed.

(** C9: the byte length the buffer and the buffer view declare is the
    length of the binary buffer, 336 bytes: 96 of positions, 72 of normals,
    96 of texture coordinates and 72 of indices. *)
Theorem declared_byte_length_is_buffer_length :
  exists gltf bin idx P N U I,
    create_cube_mesh_gltf = Some (gltf, bin, idx) /\
    (stream pack_le_f positions = Some P /\
     stream pack_le_f normals = Some N /\
     stream pack_le_f uvs = Some U /\
     stream (pack_le fmt_H) indices = Some I) /\
    bin = P ++ N ++ U ++ I /\
    map (@length byte) [P; N; U; I] = [96; 72; 96; 72]%nat /\
    length bin = 336%nat /\
    map byteLength (buffers gltf) = [Z.of_nat (length bin)] /\
    map bv_byteLength (bufferViews gltf) = [Z.of_nat (length bin)].
Proof.
  do 7 eexists. cube_returns.
  split; [repeat split; vm_compute; reflexivity|].
  repeat split; vm_compute; reflexivity.
Qed.

(** C10: each of the 36 triangle indices of the cube refers to a vertex:
    it is below the count 8 that the POSITION accessor declares. *)
Theorem indices_are_vertex_references :
  exists gltf bin idx pa,
    create_cube_mesh_gltf = Some (gltf, bin, idx) /\
    attribute_accessor gltf "POSITION" = Some pa /\
    count pa = 8 /\
    length indices = 36%nat /\
    idx = indices /\
    Forall (fun i => 0 <= i < count pa) indices.
Proof.
  do 4 eexists. cube_returns.
  split; [vm_compute; reflexivity|].
  split; [reflexivity|].
  split; [reflexivity|].
  split; [reflexivity|].
  unfold indices. repeat (apply Forall_cons; [simpl; lia|]). apply Forall_nil.
Qed.

(** * Further properties of the generators *)

(** ** Writing fields and padding *)

(** X1: the padding step never fails and never truncates: it appends zeros
    only, and the file ends up as long as the larger of the target size and
    what had been written. *)
Theorem pad_to_total (sz : Z) (f : bytes) :
  pad_to sz f = Some (tt, f ++ zeros (sz - Z.of_nat (length f))) /\
  Z.of_nat (length (f ++ zeros (sz - Z.of_nat (length f))))
    = Z.max sz (Z.of_nat (length f)).
Proof.
  destruct (Z_le_gt_dec (Z.of_nat (length f)) sz) as [Hle|Hgt].
  - destruct (pad_to_short sz f Hle) as [Hp Hl]. split; [exact Hp|].
    rewrite Hl. lia.
  - rewrite (pad_to_long sz f) by lia.
    assert (Hz : zeros (sz - Z.of_nat (length f)) = []).
    { unfold zeros. replace (Z.to_nat (sz - Z.of_nat (length f))) with 0%nat by lia.
      reflexivity. }
    rewrite Hz, app_nil_r. split; [reflexivity|lia].
Qed.

(** X2: writing a packed big-endian field either raises, exactly when the
    value does not fit the width, or appends exactly the width in bytes,
    leaves what was written before in place, and the bytes appended decode
    back to the value. *)
Theorem write_pack_be_round_trip (fmt : int_format) (n : Z) (f : bytes) :
  match write_pack_be fmt n f with
  | Some (_, f') =>
      0 <= n < 2 ^ (8 * Z.of_nat (int_width fmt)) /\
      firstn (length f) f' = f /\
      length f' = (length f + int_width fmt)%nat /\
      be_decode (skipn (length f) f') = n
  | None => ~ (0 <= n < 2 ^ (8 * Z.of_nat (int_width fmt)))
  end.
Proof.
  unfold write_pack_be, bind, raise_of, write.
  destruct (pack_be fmt n) as [data|] eqn:E.
  - pose proof (pack_be_decode _ _ _ E) as [Hdec Hlen].
    unfold pack_be in E.
    destruct (in_range (int_width fmt) n) eqn:R; [|discriminate].
    apply in_range_spec in R.
    split; [exact R|].
    split; [apply firstn_exact; reflexivity|].
    split; [rewrite length_app; lia|].
    rewrite skipn_exact by reflexivity. exact Hdec.
  - unfold pack_be in E.
    destruct (in_range (int_width fmt) n) eqn:R; [discriminate|].
    intros H. apply in_range_spec in H. congruence.
Qed.

(** ** The generators on the file system *)







(** ** The packing loops of the mesh export *)

Lemma pack_le_f_length (x : float) (data : bytes) :
  pack_le_f x = Some data -> length data = 4%nat.
Proof.
  unfold pack_le_f. intros H.
  assert (Hd : exists bits, data = le_bytes 4 bits).
  { destruct x; try (injection H as <-; eexists; reflexivity).
    destruct (to_binary32 _); try discriminate;
      injection H as <-; eexists; reflexivity. }
  destruct Hd as [bits ->]. apply le_bytes_length.
Qed.

Lemma stream_length {A} (pack : A -> option bytes) (w : nat) :
  (forall x data, pack x = Some data -> length data = w) ->
  forall xs data, stream pack xs = Some data ->
                  length data = (w * length xs)%nat.
Proof.
  intros Hw. induction xs as [|x tl IH]; intros data.
  - intros [= <-]. simpl. lia.
  - rewrite stream_cons. destruct (pack x) as [d|] eqn:E; [|discriminate].
    destruct (stream pack tl) as [data'|]; [|discriminate].
    intros [= <-]. rewrite length_app, (Hw _ _ E), (IH _ eq_refl). simpl. lia.
Qed.

Lemma extend_packed_inv {A} (pack : A -> option bytes) (xs : list A)
      (pre out : bytes) :
  extend_packed pack xs pre = Some out ->
  exists data, stream pack xs = Some data /\ out = pre ++ data.
Proof.
  rewrite extend_packed_shift.
  destruct (stream pack xs) as [data|]; [|discriminate].
  intros [= <-]. now exists data.
Qed.

(** X5: a loop packing floats appends four bytes per value to the buffer
    and leaves the bytes already there in place. *)
Theorem float_loop_appends_four_bytes_each (xs : list float) (pre out : bytes) :
  extend_packed pack_le_f xs pre = Some out ->
  firstn (length pre) out = pre /\
  length out = (length pre + 4 * length xs)%nat.
Proof.
  intros H. apply extend_packed_inv in H as (data & Hs & ->).
  split; [apply firstn_exact; reflexivity|].
  rewrite length_app, (stream_length pack_le_f 4 pack_le_f_length _ _ Hs).
  reflexivity.
Qed.

Lemma float_loop_appends_four_bytes_each_witness :
  exists out,
    extend_packed pack_le_f [f0_5; neg f1_0] [x01] = Some out /\
    firstn 1 out = [x01] /\ length out = 9%nat.
Proof.
  eexists. split; [vm_compute; reflexivity|].
  exact (float_loop_appends_four_bytes_each [f0_5; neg f1_0] [x01] _ eq_refl).
Defined.

Lemma stream_shorts_total (xs : list Z) :
  Forall (fun i => 0 <= i <= 65535) xs ->
  exists data, stream (pack_le fmt_H) xs = Some data.
Proof.
  induction 1 as [|x tl Hx _ [data IH]]; [now exists []|].
  rewrite stream_cons, IH. unfold pack_le.
  replace (in_range (int_width fmt_H) x) with true
    by (symmetry; apply in_range_spec; simpl; lia).
  eexists. reflexivity.
Qed.

(** X6: the loop packing the indices returns exactly when every index lies
    in 0..65535; an index beyond that makes it raise, it is never widened to
    32 bits. *)
Theorem index_loop_returns_iff_in_range (xs : list Z) (pre : bytes) :
  (exists out, extend_packed (pack_le fmt_H) xs pre = Some out) <->
  Forall (fun i => 0 <= i <= 65535) xs.
Proof.
  split.
  - intros [out H]. apply extend_packed_inv in H as (data & Hs & _).
    exact (stream_shorts_in_range _ _ Hs).
  - intros H. destruct (stream_shorts_total xs H) as [data Hs].
    exists (pre ++ data). rewrite extend_packed_shift, Hs. reflexivity.
Qed.

(** X7: whatever indices the loop packs are read back from the buffer, in
    order, as little-endian 16-bit integers starting where the loop began to
    write; the bytes before are untouched. *)
Theorem index_loop_round_trip (xs : list Z) (pre out : bytes) :
  extend_packed (pack_le fmt_H) xs pre = Some out ->
  firstn (length pre) out = pre /\
  length out = (length pre + 2 * length xs)%nat /\
  read_items unpack_le_H 2 (length xs) (skipn (length pre) out) = Some xs.
Proof.
  intros H. apply extend_packed_inv in H as (data & Hs & ->).
  destruct (shorts_round_trip xs data [] Hs) as [Hread Hlen].
  rewrite app_nil_r in Hread.
  split; [apply firstn_exact; reflexivity|].
  split; [rewrite length_app; lia|].
  rewrite skipn_exact by reflexivity. exact Hread.
Qed.

Lemma index_loop_round_trip_witness :
  exists out,
    extend_packed (pack_le fmt_H) [0; 65535; 258] [x01] = Some out /\
    firstn 1 out = [x01] /\ length out = 7%nat /\
    read_items unpack_le_H 2 3 (skipn 1 out) = Some [0; 65535; 258].
Proof.
  eexists. split; [vm_compute; reflexivity|].
  exact (index_loop_round_trip [0; 65535; 258] [x01] _ eq_refl).
Defined.

(** * The scripts *)

(** ** Finding the Unity files *)

Lemma fold_left_extend {A B} (g : B -> list A) (keys : list B) (acc : list A) :
  fold_left (fun unity_files k => unity_files ++ g k) keys acc
  = acc ++ flat_map g keys.
Proof.
  revert acc. induction keys as [|k tl IH]; intros acc; simpl.
  - now rewrite app_nil_r.
  - now rewrite IH, app_assoc.
Qed.

Lemma find_unity_files_flat_map `{Platform} (directory : string) (w : World) :
  find_unity_files directory w
  = flat_map (fun ext =>
                filter (fun p => ends_with (path_name p) ext)
                       (walk directory w))
             unity_extensions.
Proof. unfold find_unity_files. rewrite fold_left_extend. reflexivity. Qed.

(** X8: the files found are exactly the paths below the directory whose
    name ends with one of the five Unity extensions. *)
Theorem find_unity_files_spec `{Platform} (directory : string) (w : World)
        (p : string) :
  In p (find_unity_files directory w) <->
  In p (walk directory w) /\
  exists ext, In ext unity_extensions /\ ends_with (path_name p) ext = true.
Proof.
  rewrite find_unity_files_flat_map, in_flat_map. split.
  - intros (ext & Hext & Hin). apply filter_In in Hin as [Hin Hm].
    split; [exact Hin|]. now exists ext.
  - intros (Hin & ext & Hext & Hm). exists ext. split; [exact Hext|].
    apply filter_In. now split.
Qed.

Lemma is_prefix_both (a c l : list ascii) :
  is_prefix a l = true -> is_prefix c l = true ->
  is_prefix a c = true \/ is_prefix c a = true.
Proof.
  revert c l. induction a as [|x a IH]; intros c l; [now left|].
  destruct c as [|y c]; [now right|].
  destruct l as [|z l]; [discriminate|]. simpl.
  intros [Hx Ha]%andb_true_iff [Hy Hc]%andb_true_iff.
  apply Ascii.eqb_eq in Hx, Hy. subst.
  rewrite Ascii.eqb_refl. simpl. eapply IH; eassumption.
Qed.

(** No name ends with two different Unity extensions. *)
Lemma unity_extension_unique (name e1 e2 : string) :
  In e1 unity_extensions -> In e2 unity_extensions ->
  ends_with name e1 = true -> ends_with name e2 = true -> e1 = e2.
Proof.
  unfold ends_with. intros H1 H2 P1 P2.
  destruct (is_prefix_both _ _ _ P1 P2) as [D|D]; clear P1 P2;
    simpl in H1, H2;
    repeat (destruct H1 as [<-|H1]; [|]);
    try contradiction;
    repeat (destruct H2 as [<-|H2]; [|]);
    try contradiction; try reflexivity; vm_compute in D; discriminate.
Qed.

Lemma NoDup_flat_map_filter {A B} (f : B -> A -> bool) (l : list A)
      (keys : list B) :
  NoDup l ->
  (forall k1 k2 x, In k1 keys -> In k2 keys ->
                   f k1 x = true -> f k2 x = true -> k1 = k2) ->
  NoDup keys ->
  NoDup (flat_map (fun k => filter (f k) l) keys).
Proof.
  intros Hl Hex Hk. induction Hk as [|k tl Hnin Hk IH]; simpl; [constructor|].
  apply NoDup_app.
  - now apply NoDup_filter.
  - apply IH. intros k1 k2 x H1 H2. apply Hex; now right.
  - intros x Hx Hy. apply filter_In in Hx as [_ Hx].
    apply in_flat_map in Hy as (k' & Hk' & Hy).
    apply filter_In in Hy as [_ Hy].
    assert (k = k') by (eapply Hex; eauto; [now left|now right]).
    subst k'. contradiction.
Qed.

(** X9: a path that the traversal yields once is found once, although the
    directory is traversed anew for each extension. *)
Theorem find_unity_files_no_duplicates `{Platform} (directory : string)
        (w : World) :
  NoDup (walk directory w) -> NoDup (find_unity_files directory w).
Proof.
  intros Hw. rewrite find_unity_files_flat_map.
  apply (NoDup_flat_map_filter
           (fun ext p => ends_with (path_name p) ext)); [exact Hw| |].
  - intros k1 k2 x H1 H2. now apply unity_extension_unique.
  - unfold unity_extensions.
    repeat (constructor; [simpl; intuition discriminate|]). constructor.
Qed.

Lemma find_unity_files_no_duplicates_witness :
  NoDup (@find_unity_files sample_platform "game" (fun _ => None, tt)) /\
  @find_unity_files sample_platform "game" (fun _ => None, tt)
    = ["game/level1.unity3d"; "game/data/sharedassets0.assets";
       "game/audio.resS"]%string.
Proof.
  split; [|vm_compute; reflexivity].
  apply (@find_unity_files_no_duplicates sample_platform).
  simpl. repeat (constructor; [simpl; intuition discriminate|]). constructor.
Defined.

(** ** The command-line wrappers of unity_extraction.py *)

Ltac run_script :=
  unfold try_except, try_finally, sbind, sret, raise, sys_exit, read_world,
    on_world, subprocess_run, except_Exception, try_except_pass in *;
  cbn [fst snd world calls returncode stdout stderr andb negb] in *.

Ltac case_spawn :=
  match goal with
  | |- context [spawn ?c ?d ?t ?w] =>
      let rc := fresh "rc" in
      let e := fresh "e" in
      destruct (spawn c d t w) as [[rc ? ?|e] ?] eqn:?;
      [destruct (rc =? 0) eqn:?|destruct e];
      cbn [fst snd world calls returncode stdout stderr andb negb
           completes_ok] in *
  end.

(** X10: each wrapper starts exactly one command, its own, and returns
    [True] exactly when that process ran to completion with return code 0. *)
Theorem wrappers_return_true_iff_success `{Platform}
        (unity_file output_dir : string) (st : State) :
  (calls (snd (extract_unity_assets unity_file output_dir st))
     = calls st ++ [extract_cmd unity_file output_dir] /\
   (fst (extract_unity_assets unity_file output_dir st) = Returned true <->
    completes_ok (fst (spawn (extract_cmd unity_file output_dir) None None
                             (world st))) = true)) /\
  (calls (snd (list_unity_assets unity_file st))
     = calls st ++ [list_cmd unity_file] /\
   (fst (list_unity_assets unity_file st) = Returned true <->
    completes_ok (fst (spawn (list_cmd unity_file) None None (world st)))
      = true)) /\
  (calls (snd (check_compliance unity_file st))
     = calls st ++ [compliance_cmd unity_file] /\
   (fst (check_compliance unity_file st) = Returned true <->
    completes_ok (fst (spawn (compliance_cmd unity_file) None None
                             (world st))) = true)).
Proof.
  unfold extract_unity_assets, list_unity_assets, check_compliance.
  run_script.
  repeat split; try case_spawn; try reflexivity; try discriminate;
    intros; try reflexivity; try discriminate; congruence.
Qed.

(** ** [main] of unity_extraction.py *)

Ltac long_argv argv :=
  let H2 := fresh in
  let H3 := fresh in
  assert (H2 : (length argv <? 2)%nat = false) by (apply Nat.ltb_ge; lia);
  assert (H3 : (length argv <? 3)%nat = false) by (apply Nat.ltb_ge; lia);
  rewrite ?H2, ?H3.

Ltac eval_command H :=
  rewrite ?H; cbv [String.eqb Ascii.eqb Bool.eqb].

Ltac unfold_main :=
  unfold unity_extraction_main, require_file, list_unity_assets,
    extract_unity_assets, check_compliance, chosen_output_dir;
  cbv zeta.

(** X11: without a command, with an unknown command, or without the path
    argument, [main] leaves through [sys.exit(1)]; it has started no process
    and changed nothing. *)
Theorem main_rejects_bad_usage `{Platform} (argv : list string) (st : State) :
  (length argv < 3)%nat \/
  ~ In (argv_at argv 1) ["find"; "list"; "extract"; "compliance"]%string ->
  unity_extraction_main argv st = (Exited 1, st).
Proof.
  intros Hbad. unfold_main.
  destruct (length argv <? 2)%nat eqn:L2; [reflexivity|].
  destruct (length argv <? 3)%nat eqn:L3.
  - destruct (String.eqb (argv_at argv 1) "find"); [reflexivity|].
    destruct (String.eqb (argv_at argv 1) "list"); [reflexivity|].
    destruct (String.eqb (argv_at argv 1) "extract"); [reflexivity|].
    destruct (String.eqb (argv_at argv 1) "compliance"); reflexivity.
  - apply Nat.ltb_ge in L3. destruct Hbad as [Hlen|Hcmd]; [lia|].
    destruct (String.eqb_spec (argv_at argv 1) "find") as [E|_];
      [exfalso; apply Hcmd; rewrite E; simpl; tauto|].
    destruct (String.eqb_spec (argv_at argv 1) "list") as [E|_];
      [exfalso; apply Hcmd; rewrite E; simpl; tauto|].
    destruct (String.eqb_spec (argv_at argv 1) "extract") as [E|_];
      [exfalso; apply Hcmd; rewrite E; simpl; tauto|].
    destruct (String.eqb_spec (argv_at argv 1) "compliance") as [E|_];
      [exfalso; apply Hcmd; rewrite E; simpl; tauto|].
    reflexivity.
Qed.

Lemma main_rejects_bad_usage_witness :
  @unity_extraction_main sample_platform
     ["unity_extraction.py"; "extract"]%string sample_state
    = (Exited 1, sample_state) /\
  @unity_extraction_main sample_platform
     ["unity_extraction.py"; "convert"; "level1.unity3d"]%string sample_state
    = (Exited 1, sample_state).
Proof.
  split.
  - apply (@main_rejects_bad_usage sample_platform). left. simpl. lia.
  - apply (@main_rejects_bad_usage sample_platform). right. simpl.
    intuition discriminate.
Defined.

(** X12: [list], [extract] and [compliance] on a path that does not exist
    leave through [sys.exit(1)] before any process is started. *)
Theorem main_rejects_missing_file `{Platform} (argv : list string) (st : State) :
  In (argv_at argv 1) ["list"; "extract"; "compliance"]%string ->
  (3 <= length argv)%nat ->
  path_exists (path_str (argv_at argv 2)) (world st) = false ->
  unity_extraction_main argv st = (Exited 1, st).
Proof.
  intros Hcmd Hlen Hex. unfold_main. long_argv argv.
  simpl in Hcmd. destruct Hcmd as [E|[E|[E|[]]]]; symmetry in E;
    eval_command E; run_script; rewrite Hex; reflexivity.
Qed.

Lemma main_rejects_missing_file_witness :
  @unity_extraction_main sample_platform
     ["unity_extraction.py"; "compliance"; "missing.assets"]%string sample_state
    = (Exited 1, sample_state).
Proof.
  apply (@main_rejects_missing_file sample_platform).
  - simpl. tauto.
  - simpl. lia.
  - reflexivity.
Defined.



(** X14: [list] on an existing file starts the one listing command and then
    returns normally whether the tool succeeded, failed with a return code or
    is not installed: the failure does not reach the exit status. *)
Theorem main_list_hides_failure `{Platform} (argv : list string) (st : State)
        (r : run_result) (w : World) :
  argv_at argv 1 = "list"%string ->
  (3 <= length argv)%nat ->
  path_exists (path_str (argv_at argv 2)) (world st) = true ->
  spawn (list_cmd (path_str (argv_at argv 2))) None None (world st) = (r, w) ->
  handled_by_wrapper r = true ->
  unity_extraction_main argv st
    = (Returned tt,
       {| world := w;
          calls := calls st ++ [list_cmd (path_str (argv_at argv 2))] |}).
Proof.
  intros Hcmd Hlen Hex Hsp Hr. unfold_main. long_argv argv.
  eval_command Hcmd. run_script. rewrite Hex. cbn [negb]. rewrite Hsp.
  destruct r as [rc o e|[]]; try discriminate; try reflexivity.
  destruct (rc =? 0); reflexivity.
Qed.

Lemma main_list_hides_failure_witness :
  @unity_extraction_main bare_platform
     ["unity_extraction.py"; "list"; "level1.unity3d"]%string bare_state
    = (Returned tt,
       @Build_State bare_platform (sample_fs, tt)
         [list_cmd "level1.unity3d"]).
Proof.
  apply (@main_list_hides_failure bare_platform
           ["unity_extraction.py"; "list"; "level1.unity3d"]%string bare_state
           (SpawnError FileNotFoundError) (sample_fs, tt));
    try reflexivity; simpl; lia.
Defined.

(** X15: [extract] on an existing file makes the output directory, the
    fourth argument or else "./extracted", then starts the one extraction
    command on the file and that directory, and returns normally whether the
    tool succeeded, failed with a return code or is not installed. *)
Theorem main_extract_hides_failure `{Platform} (argv : list string)
        (st : State) (r : run_result) (w1 w2 : World) :
  argv_at argv 1 = "extract"%string ->
  (3 <= length argv)%nat ->
  path_exists (path_str (argv_at argv 2)) (world st) = true ->
  mkdir_parents (chosen_output_dir argv) (world st) = (None, w1) ->
  spawn (extract_cmd (path_str (argv_at argv 2)) (chosen_output_dir argv))
        None None w1 = (r, w2) ->
  handled_by_wrapper r = true ->
  unity_extraction_main argv st
    = (Returned tt,
       {| world := w2;
          calls := calls st ++ [extract_cmd (path_str (argv_at argv 2))
                                            (chosen_output_dir argv)] |}).
Proof.
  intros Hcmd Hlen Hex Hmk Hsp Hr. unfold chosen_output_dir in *.
  unfold_main. long_argv argv.
  eval_command Hcmd. run_script. rewrite Hex. cbn [negb]. rewrite Hmk.
  cbn [world calls]. rewrite Hsp.
  destruct r as [rc o e|[]]; try discriminate; try reflexivity.
  destruct (rc =? 0); reflexivity.
Qed.

Lemma main_extract_hides_failure_witness :
  @unity_extraction_main bare_platform
     ["unity_extraction.py"; "extract"; "level1.unity3d"]%string bare_state
    = (Returned tt,
       @Build_State bare_platform (sample_fs, tt)
         [extract_cmd "level1.unity3d" "./extracted"]).
Proof.
  apply (@main_extract_hides_failure bare_platform
           ["unity_extraction.py"; "extract"; "level1.unity3d"]%string
           bare_state (SpawnError FileNotFoundError)
           (sample_fs, tt) (sample_fs, tt));
    try reflexivity; simpl; lia.
Defined.

(** X16: when the output directory cannot be made, [extract] raises that
    error and the extraction command is never started. *)
Theorem main_extract_stops_without_directory `{Platform} (argv : list string)
        (st : State) (e : exn) (w1 : World) :
  argv_at argv 1 = "extract"%string ->
  (3 <= length argv)%nat ->
  path_exists (path_str (argv_at argv 2)) (world st) = true ->
  mkdir_parents (chosen_output_dir argv) (world st) = (Some e, w1) ->
  unity_extraction_main argv st
    = (Raised e, {| world := w1; calls := calls st |}).
Proof.
  intros Hcmd Hlen Hex Hmk. unfold chosen_output_dir in *.
  unfold_main. long_argv argv.
  eval_command Hcmd. run_script. rewrite Hex. cbn [negb]. rewrite Hmk.
  reflexivity.
Qed.

Lemma main_extract_stops_without_directory_witness :
  @unity_extraction_main locked_platform
     ["unity_extraction.py"; "extract"; "level1.unity3d"; "out"]%string
     locked_state
    = (Raised OtherError, locked_state).
Proof.
  apply (@main_extract_stops_without_directory locked_platform
           ["unity_extraction.py"; "extract"; "level1.unity3d"; "out"]%string
           locked_state OtherError (sample_fs, tt));
    try reflexivity; simpl; lia.
Defined.

(** X17: [compliance] has no handler for a tool that is not installed: the
    [FileNotFoundError] of the one command it starts leaves [main] as an
    uncaught exception, where [list] and [extract] return normally; a
    return code other than 0 is still caught. *)
Theorem main_compliance_lets_missing_tool_escape `{Platform}
        (argv : list string) (st : State) (r : run_result) (w : World) :
  argv_at argv 1 = "compliance"%string ->
  (3 <= length argv)%nat ->
  path_exists (path_str (argv_at argv 2)) (world st) = true ->
  spawn (compliance_cmd (path_str (argv_at argv 2))) None None (world st)
    = (r, w) ->
  unity_extraction_main argv st
    = (match r with
       | SpawnError FileNotFoundError => Raised FileNotFoundError
       | SpawnError TimeoutExpired => Raised TimeoutExpired
       | SpawnError OtherError => Raised OtherError
       | _ => Returned tt
       end,
       {| world := w;
          calls := calls st ++ [compliance_cmd (path_str (argv_at argv 2))] |}).
Proof.
  intros Hcmd Hlen Hex Hsp. unfold_main. long_argv argv.
  eval_command Hcmd. run_script. rewrite Hex. cbn [negb]. rewrite Hsp.
  destruct r as [rc o e|[]]; try reflexivity.
  destruct (rc =? 0); reflexivity.
Qed.

Lemma main_compliance_lets_missing_tool_escape_witness :
  @unity_extraction_main bare_platform
     ["unity_extraction.py"; "compliance"; "level1.unity3d"]%string bare_state
    = (Raised FileNotFoundError,
       @Build_State bare_platform (sample_fs, tt)
         [compliance_cmd "level1.unity3d"]).
Proof.
  apply (@main_compliance_lets_missing_tool_escape bare_platform
           ["unity_extraction.py"; "compliance"; "level1.unity3d"]%string
           bare_state (SpawnError FileNotFoundError) (sample_fs, tt));
    try reflexivity; simpl; lia.
Defined.

(** ** The integration test *)

Lemma test_compilation_eval `{Platform} (st : State) (r1 r2 : run_result)
      (w1 w2 : World) :
  spawn cargo_check_cli (Some project_dir) (Some 60) (world st) = (r1, w1) ->
  spawn cargo_check_plugin (Some unity_plugin_dir) (Some 60) w1 = (r2, w2) ->
  test_compilation st
    = (Returned (completes_ok r1 && completes_ok r2),
       if completes_ok r1
       then {| world := w2;
               calls := calls st ++ [cargo_check_cli; cargo_check_plugin] |}
       else {| world := w1; calls := calls st ++ [cargo_check_cli] |}).
Proof.
  unfold cargo_check_cli, cargo_check_plugin, test_compilation.
  intros H1 H2. run_script. rewrite H1.
  destruct r1 as [rc1 o1 e1|x1]; cbn [completes_ok andb]; [|reflexivity].
  cbn [returncode]. destruct (rc1 =? 0); cbn [negb andb]; [|reflexivity].
  cbn [world calls]. rewrite H2, <- app_assoc. cbn [app].
  destruct r2 as [rc2 o2 e2|x2]; cbn [completes_ok]; [|reflexivity].
  cbn [returncode]. destruct (rc2 =? 0); reflexivity.
Qed.







(** X20: when the command-line tool does not compile, [main] returns [False]
    after that one check: the plugin is not checked, no fixture is written
    and the tool is never run. *)
Theorem integration_main_stops_without_cli `{Platform} (st : State)
        (r1 : run_result) (w1 : World) :
  spawn cargo_check_cli (Some project_dir) (Some 60) (world st) = (r1, w1) ->
  completes_ok r1 = false ->
  integration_main st
    = (Returned false,
       {| world := w1; calls := calls st ++ [cargo_check_cli] |}).
Proof.
  intros H1 Hr.
  destruct (spawn cargo_check_plugin (Some unity_plugin_dir) (Some 60) w1)
    as [r2 w2] eqn:H2.
  unfold integration_main, sbind.
  rewrite (test_compilation_eval st r1 r2 w1 w2 H1 H2), Hr. reflexivity.
Qed.

Lemma integration_main_stops_without_cli_witness :
  @integration_main bare_platform bare_state
    = (Returned false,
       @Build_State bare_platform (sample_fs, tt) [cargo_check_cli]).
Proof.
  exact (@integration_main_stops_without_cli bare_platform bare_state
           (SpawnError FileNotFoundError) (sample_fs, tt) eq_refl eq_refl).
Defined.



(** ** Single-precision values through the float loops *)

Lemma digits2_pos_size (m : positive) : digits2_pos m = Pos.size m.
Proof. induction m as [m IH|m IH|]; simpl; now rewrite ?IH. Qed.

Lemma digits2_pos_iter_xO (m d : positive) :
  digits2_pos (Pos.iter xO m d) = (digits2_pos m + d)%positive.
Proof.
  induction d as [|d IH] using Pos.peano_ind.
  - simpl. now rewrite Pos.add_1_r.
  - rewrite Pos.iter_succ. simpl. now rewrite IH, Pos.add_succ_r.
Qed.

Lemma iter_pos_Pos_iter {A} (f : A -> A) (n : positive) (x : A) :
  iter_pos f n x = Pos.iter f x n.
Proof.
  revert x. induction n as [n IH|n IH|]; intros x; simpl.
  - rewrite !IH. rewrite (Pos.iter_swap n A f x).
    now rewrite (Pos.iter_swap n A f (Pos.iter f x n)).
  - now rewrite !IH.
  - reflexivity.
Qed.

Lemma shr_iter_xO (m d : positive) :
  iter_pos shr_1 d
    {| shr_m := Zpos (Pos.iter xO m d); shr_r := false; shr_s := false |}
  = {| shr_m := Zpos m; shr_r := false; shr_s := false |}.
Proof.
  rewrite iter_pos_Pos_iter. revert m.
  induction d as [|d IH] using Pos.peano_ind; intros m.
  - reflexivity.
  - rewrite (Pos.iter_succ_r d positive xO m).
    rewrite (Pos.iter_succ d shr_record shr_1), IH. reflexivity.
Qed.

(** A mantissa that already fits is left as it is. *)
Lemma binary_round_aux_exact (prec emax : Z) (s : bool) (m : positive) (e : Z) :
  fexp prec emax (Zpos (digits2_pos m) + e) = e ->
  e <= emax - prec ->
  binary_round_aux prec emax s (Zpos m) e loc_Exact = S754_finite s m e.
Proof.
  intros Hf He. unfold binary_round_aux, shr_fexp.
  cbn [Zdigits2 shr_record_of_loc]. rewrite Hf, Z.sub_diag.
  cbn [shr shr_m loc_of_shr_record round_nearest_even Zdigits2
       shr_record_of_loc].
  rewrite Hf, Z.sub_diag. cbn [shr shr_m].
  apply Z.leb_le in He. now rewrite He.
Qed.

(** A mantissa extended by [d] zero bits is shortened by them again. *)
Lemma binary_round_aux_shift (prec emax : Z) (s : bool) (m d : positive)
      (e : Z) :
  fexp prec emax (Zpos (digits2_pos m) + e) = e ->
  e <= emax - prec ->
  binary_round_aux prec emax s (Zpos (Pos.iter xO m d)) (e - Zpos d) loc_Exact
  = S754_finite s m e.
Proof.
  intros Hf He. unfold binary_round_aux, shr_fexp.
  cbn [Zdigits2 shr_record_of_loc]. rewrite digits2_pos_iter_xO.
  replace (Zpos (digits2_pos m + d) + (e - Zpos d))
    with (Zpos (digits2_pos m) + e) by lia.
  rewrite Hf.
  replace (e - (e - Zpos d)) with (Zpos d) by lia.
  cbn [shr]. rewrite shr_iter_xO.
  cbn [shr_m loc_of_shr_record round_nearest_even Zdigits2 shr_record_of_loc].
  replace (e - Zpos d + Zpos d) with e by lia.
  rewrite Hf, Z.sub_diag. cbn [shr shr_m].
  apply Z.leb_le in He. now rewrite He.
Qed.

Lemma bounded_binary32 (m : positive) (e : Z) :
  bounded 24 128 m e = true ->
  fexp 24 128 (Zpos (digits2_pos m) + e) = e /\ -149 <= e <= 104 /\
  Zpos (digits2_pos m) <= 24 /\
  (Zpos (digits2_pos m) < 24 -> e = -149).
Proof.
  unfold bounded, canonical_mantissa. intros [Hc He]%andb_true_iff.
  apply Z.eqb_eq in Hc. apply Z.leb_le in He.
  split; [exact Hc|]. unfold fexp, emin in Hc. lia.
Qed.

(** The double that holds a single-precision value: its mantissa extended
    to 53 bits. *)
Lemma to_binary64_finite (s : bool) (m : positive) (e : Z) :
  bounded 24 128 m e = true ->
  to_binary64 (S754_finite s m e)
  = S754_finite s
      (Pos.iter xO m (Z.to_pos (53 - Zpos (digits2_pos m))))
      (e - Zpos (Z.to_pos (53 - Zpos (digits2_pos m)))).
Proof.
  intros Hb. destruct (bounded_binary32 m e Hb) as (Hc & He & Hd & _).
  set (d := Z.to_pos (53 - Zpos (digits2_pos m))).
  assert (Hdz : Zpos d = 53 - Zpos (digits2_pos m))
    by (unfold d; rewrite Z2Pos.id; lia).
  unfold to_binary64, binary_round, shl_align.
  assert (Hf : fexp 53 1024 (Zpos (digits2_pos m) + e) = e - Zpos d)
    by (unfold fexp, emin; lia).
  rewrite Hf.
  replace (e - Zpos d - e) with (Zneg d) by lia.
  apply binary_round_aux_exact.
  - rewrite digits2_pos_iter_xO. unfold fexp, emin. lia.
  - lia.
Qed.

(** Rounding that double to single precision gives the value back. *)
Lemma to_binary32_to_binary64 (s : bool) (m : positive) (e : Z) :
  bounded 24 128 m e = true ->
  to_binary32 (to_binary64 (S754_finite s m e)) = S754_finite s m e.
Proof.
  intros Hb. rewrite (to_binary64_finite s m e Hb).
  destruct (bounded_binary32 m e Hb) as (Hc & He & Hd & _).
  set (d := Z.to_pos (53 - Zpos (digits2_pos m))).
  assert (Hdz : Zpos d = 53 - Zpos (digits2_pos m))
    by (unfold d; rewrite Z2Pos.id; lia).
  unfold to_binary32, binary_round, shl_align.
  rewrite digits2_pos_iter_xO.
  replace (Zpos (digits2_pos m + d) + (e - Zpos d))
    with (Zpos (digits2_pos m) + e) by lia.
  rewrite Hc.
  replace (e - (e - Zpos d)) with (Zpos d) by lia.
  apply binary_round_aux_shift; [exact Hc|lia].
Qed.

Lemma testbit_small (x i : Z) : 0 <= i -> 0 <= x < 2 ^ i -> Z.testbit x i = false.
Proof.
  intros Hi Hx. apply Z.testbit_false; [exact Hi|].
  rewrite Z.div_small by exact Hx. reflexivity.
Qed.

Lemma lor_disjoint (k x n : Z) :
  0 <= n -> 0 <= x < 2 ^ n -> Z.lor (k * 2 ^ n) x = k * 2 ^ n + x.
Proof.
  intros Hn Hx.
  assert (H0 : Z.land (k * 2 ^ n) x = 0).
  { apply Z.bits_inj'. intros i Hi. rewrite Z.land_spec, Z.bits_0.
    destruct (Z.lt_ge_cases i n) as [Hlt|Hge].
    - now rewrite Z.mul_pow2_bits_low.
    - rewrite (testbit_small x i), andb_false_r; [reflexivity|exact Hi|].
      pose proof (Z.pow_le_mono_r 2 n i ltac:(lia) Hge). lia. }
  now rewrite <- Z.lxor_lor, <- Z.add_nocarry_lxor.
Qed.

(** The three fields of a 32-bit pattern assembled from a sign, an exponent
    field and a fraction field. *)
Lemma fields_of_pattern (s : bool) (E F : Z) :
  0 <= E < 256 -> 0 <= F < 2 ^ 23 ->
  Z.testbit (Z.b2z s * 2 ^ 31 + (E * 2 ^ 23 + F)) 31 = s /\
  Z.land (Z.shiftr (Z.b2z s * 2 ^ 31 + (E * 2 ^ 23 + F)) 23) 255 = E /\
  Z.land (Z.b2z s * 2 ^ 31 + (E * 2 ^ 23 + F)) (2 ^ 23 - 1) = F.
Proof.
  intros HE HF.
  assert (Hs : 0 <= Z.b2z s <= 1) by (destruct s; cbn [Z.b2z]; lia).
  assert (H31 : (Z.b2z s * 2 ^ 31 + (E * 2 ^ 23 + F)) / 2 ^ 31 = Z.b2z s).
  { symmetry. apply Z.div_unique with (r := E * 2 ^ 23 + F); lia. }
  assert (H23 : (Z.b2z s * 2 ^ 31 + (E * 2 ^ 23 + F)) / 2 ^ 23
                = Z.b2z s * 256 + E).
  { symmetry. apply Z.div_unique with (r := F); lia. }
  repeat split.
  - destruct s.
    + apply Z.testbit_true; [lia|]. rewrite H31. reflexivity.
    + apply Z.testbit_false; [lia|]. rewrite H31. reflexivity.
  - rewrite Z.shiftr_div_pow2, H23 by lia.
    change 255 with (Z.ones 8). rewrite Z.land_ones by lia.
    symmetry. apply Z.mod_unique with (q := Z.b2z s); lia.
  - change (2 ^ 23 - 1) with (Z.ones 23). rewrite Z.land_ones by lia.
    symmetry. apply Z.mod_unique with (q := Z.b2z s * 256 + E); lia.
Qed.

Lemma sign_bit_b2z (s : bool) : sign_bit s = Z.b2z s * 2 ^ 31.
Proof. now destruct s. Qed.

Lemma mantissa_bounds (m : positive) :
  2 ^ Zpos (digits2_pos m) <= 2 * Zpos m /\ Zpos m < 2 ^ Zpos (digits2_pos m).
Proof.
  rewrite digits2_pos_size. split.
  - pose proof (Pos.size_le m) as H.
    apply Pos2Z.pos_le_pos in H. rewrite Pos2Z.inj_pow in H.
    now rewrite Pos2Z.inj_xO in H.
  - pose proof (Pos.size_gt m) as H.
    apply Pos2Z.pos_lt_pos in H. now rewrite Pos2Z.inj_pow in H.
Qed.

(** The bit pattern of a single-precision value determines it. *)
Lemma binary32_of_bits_of_finite (s : bool) (m : positive) (e : Z) :
  bounded 24 128 m e = true ->
  binary32_of_bits (binary32_bits (S754_finite s m e)) = S754_finite s m e /\
  0 <= binary32_bits (S754_finite s m e) < 2 ^ 32.
Proof.
  intros Hb. destruct (bounded_binary32 m e Hb) as (_ & He & Hd & Hsub).
  destruct (mantissa_bounds m) as [Hlo Hhi].
  assert (Hs : 0 <= Z.b2z s <= 1) by (destruct s; cbn [Z.b2z]; lia).
  unfold binary32_bits. destruct (2 ^ 23 <=? Zpos m) eqn:Hn.
  - apply Z.leb_le in Hn.
    assert (HD : Zpos (digits2_pos m) = 24).
    { destruct (Z.eq_dec (Zpos (digits2_pos m)) 24) as [|Hne]; [assumption|].
      pose proof (Z.pow_le_mono_r 2 (Zpos (digits2_pos m)) 23
                    ltac:(lia) ltac:(lia)). lia. }
    rewrite HD in Hlo, Hhi.
    change (2 ^ 23 - 1) with (Z.ones 23). rewrite Z.land_ones by lia.
    assert (HF : Zpos m mod 2 ^ 23 = Zpos m - 2 ^ 23)
      by (symmetry; apply Z.mod_unique with (q := 1); lia).
    rewrite HF, Z.shiftl_mul_pow2, sign_bit_b2z by lia.
    rewrite (lor_disjoint (e + 150) _ 23) by lia.
    rewrite (lor_disjoint (Z.b2z s) _ 31) by lia.
    split; [|lia].
    unfold binary32_of_bits.
    destruct (fields_of_pattern s (e + 150) (Zpos m - 2 ^ 23)
                ltac:(lia) ltac:(lia)) as (Ht & Hx & Hm).
    rewrite Ht, Hx, Hm.
    replace (e + 150 =? 0) with false by (symmetry; apply Z.eqb_neq; lia).
    replace (e + 150 =? 255) with false by (symmetry; apply Z.eqb_neq; lia).
    rewrite Z.lor_comm.
    replace (2 ^ 23) with (1 * 2 ^ 23) at 1 by lia.
    rewrite (lor_disjoint 1 _ 23) by lia.
    replace (1 * 2 ^ 23 + (Zpos m - 2 ^ 23)) with (Zpos m) by lia.
    f_equal. lia.
  - apply Z.leb_gt in Hn.
    assert (HD : Zpos (digits2_pos m) < 24).
    { destruct (Z_lt_ge_dec (Zpos (digits2_pos m)) 24) as [|Hge]; [assumption|].
      pose proof (Z.pow_le_mono_r 2 24 (Zpos (digits2_pos m))
                    ltac:(lia) ltac:(lia)). lia. }
    rewrite (Hsub HD), sign_bit_b2z.
    rewrite (lor_disjoint (Z.b2z s) _ 31) by lia.
    split; [|lia].
    unfold binary32_of_bits.
    destruct (fields_of_pattern s 0 (Zpos m) ltac:(lia) ltac:(lia))
      as (Ht & Hx & Hm).
    replace (Z.b2z s * 2 ^ 31 + Zpos m)
      with (Z.b2z s * 2 ^ 31 + (0 * 2 ^ 23 + Zpos m)) by lia.
    rewrite Ht, Hx, Hm. reflexivity.
Qed.

Lemma unpack_le_f_bits (bits : Z) :
  0 <= bits < 2 ^ 32 ->
  unpack_le_f (le_bytes 4 bits)
  = Some (to_binary64 (binary32_of_bits bits)).
Proof.
  intros Hb. unfold unpack_le_f. rewrite le_bytes_length. cbn [Nat.eqb].
  rewrite le_decode_bytes. change (2 ^ (8 * Z.of_nat 4)) with (2 ^ 32).
  now rewrite Z.mod_small.
Qed.

(** X22: every single-precision value, be it a zero, a subnormal or normal
    number, an infinity or the NaN, held in a float, is packed by
    [struct.pack('<f', x)] into four bytes without raising, and
    [struct.unpack('<f', ...)] of those bytes gives the same float back. *)
Theorem single_precision_round_trip (y : spec_float) :
  valid_binary 24 128 y = true ->
  exists data,
    pack_le_f (to_binary64 y) = Some data /\
    length data = 4%nat /\
    unpack_le_f data = Some (to_binary64 y).
Proof.
  intros Hv. destruct y as [s|s| |s m e].
  - exists (le_bytes 4 (binary32_bits (S754_zero s))).
    split; [reflexivity|]. split; [reflexivity|]. now destruct s.
  - exists (le_bytes 4 (binary32_bits (S754_infinity s))).
    split; [reflexivity|]. split; [reflexivity|]. now destruct s.
  - exists (le_bytes 4 (binary32_bits S754_nan)).
    split; [reflexivity|]. split; [reflexivity|]. reflexivity.
  - cbn [valid_binary] in Hv.
    pose proof (to_binary32_to_binary64 s m e Hv) as H32.
    destruct (binary32_of_bits_of_finite s m e Hv) as [Hbits Hrange].
    exists (le_bytes 4 (binary32_bits (S754_finite s m e))).
    split; [|split; [apply le_bytes_length|]].
    + rewrite (to_binary64_finite s m e Hv) in H32 |- *.
      unfold pack_le_f. rewrite H32. reflexivity.
    + rewrite (unpack_le_f_bits _ Hrange), Hbits. reflexivity.
Qed.

Lemma single_precision_round_trip_witness :
  exists data,
    pack_le_f (neg f0_5) = Some data /\
    length data = 4%nat /\
    unpack_le_f data = Some (neg f0_5).
Proof.
  exact (single_precision_round_trip (S754_finite true 8388608 (-24)) eq_refl).
Defined.

(** X23: packing one sequence and then another into a buffer is packing
    their concatenation: the streams lie one after the other in packing
    order, and the loop raises if either part does. *)
Theorem packing_loops_compose {A} (pack : A -> option bytes)
        (xs ys : list A) (pre : bytes) :
  (do binary_data <- extend_packed pack xs pre;
   extend_packed pack ys binary_data)
  = extend_packed pack (xs ++ ys) pre.
Proof.
  revert pre. induction xs as [|x tl IH]; intros pre; [reflexivity|].
  cbn [extend_packed app]. destruct (pack x) as [data|]; [|reflexivity].
  apply IH.
Qed.
